(** * AI-News backend: a shallow embedding of [server.js]

    The repository is a small Express application.  Two files carry code:
    [server.js], with four tool routes, and [ai-news-mcp-tools/server.js],
    a copy with the summarizer and the LoRA route only.  Every route
    validates its request body, calls an external provider over HTTP,
    reshapes the reply and answers with a JSON envelope.

    The embedding keeps the shape of the source:
    - JavaScript values are an inductive type [JS]; objects are
      association lists in insertion order, since [res.json] serialises
      them in that order;
    - [process.env] and [req.headers] are finite maps from names to
      strings ([gmap string string]);
    - strings are [string]: sequences of code units, here restricted to
      the range 0..255;
    - the outside world (network, file system, clock, [JSON.parse]) is a
      record of oracles, and a handler is a computation in a state and
      exception monad which records every outbound request and every
      file-system write in a trace.  Console output is not modelled;
      the property reads inside a logged template are, since they can
      throw. *)

From Stdlib Require Import Ascii String ZArith QArith_base.
From stdpp Require Import base strings list gmap pretty.

Local Open Scope string_scope.
Local Open Scope list_scope.
Local Open Scope nat_scope.
Local Set Warnings "-register-all".

(** ** JavaScript values *)

Module Js.

(** [JUndefined] never occurs inside parsed JSON; it is the value of a
    missing property and of a failed optional chain. *)
Inductive JS : Type :=
| JUndefined
| JNull
| JBool (b : bool)
| JNum (q : Q)
| JStr (s : string)
| JArr (items : list JS)
| JObj (fields : list (string * JS)).

(** What a [throw] carries.  The handlers only ever read [error.message].
    [TypeError] is raised by the engine; its text is engine-defined and is
    supplied by the world. *)
Inductive Exn : Type :=
| Error (message : string)
| TypeError (site : string).

Inductive Outcome (A : Type) : Type :=
| Ok (a : A)
| Throw (e : Exn).
Arguments Ok {A} a.
Arguments Throw {A} e.

(** ToBoolean.  JSON has no NaN, so a number is falsy exactly when it is
    zero. *)
Definition truthy (v : JS) : bool :=
  match v with
  | JUndefined | JNull => false
  | JBool b => b
  | JNum q => negb (Qnum q =? 0)%Z
  | JStr s => negb (String.eqb s "")
  | JArr _ | JObj _ => true
  end.

(** [a || b] *)
Definition js_or (a b : JS) : JS := if truthy a then a else b.

(** Lookup of an own property of an object literal or parsed object. *)
Fixpoint assoc (k : string) (fields : list (string * JS)) : option JS :=
  match fields with
  | [] => None
  | (k', v) :: rest => if String.eqb k k' then Some v else assoc k rest
  end.

(** [v.k] for the property names this program reads ([text], [prompt],
    [choices], [action], ...).  None of them is a member of a built-in
    prototype, so on anything but an object the result is [undefined];
    on [undefined] and [null] the engine throws. *)
Definition get_prop (v : JS) (k : string) : Outcome JS :=
  match v with
  | JUndefined | JNull => Throw (TypeError ("read " +:+ k))
  | JObj fields => Ok (default JUndefined (assoc k fields))
  | _ => Ok JUndefined
  end.

(** [v[0]] *)
Definition get_first (v : JS) : Outcome JS :=
  match v with
  | JUndefined | JNull => Throw (TypeError "read 0")
  | JArr items => Ok (default JUndefined (head items))
  | JStr (String c _) => Ok (JStr (String c ""))
  | JObj fields => Ok (default JUndefined (assoc "0" fields))
  | _ => Ok JUndefined
  end.

(** [v?.k] *)
Definition get_prop_opt (v : JS) (k : string) : JS :=
  match get_prop v k with
  | Ok x => x
  | Throw _ => JUndefined
  end.

(** [k in v], for the four key names the summarizer checks.  On a
    primitive the engine throws. *)
Definition has_key (k : string) (v : JS) : Outcome bool :=
  match v with
  | JObj fields => Ok (bool_decide (is_Some (assoc k fields)))
  | JArr _ => Ok false
  | _ => Throw (TypeError ("in " +:+ k))
  end.

Definition isArray (v : JS) : bool :=
  match v with JArr _ => true | _ => false end.

(** [v.length === 0], used only after [isArray]. *)
Definition length_is_zero (v : JS) : bool :=
  match v with JArr [] => true | _ => false end.

(** Destructuring [const { a, b = d } = v]: throws on [undefined] and
    [null]; a default applies exactly when the property is [undefined]. *)
Definition destructurable (v : JS) : bool :=
  match v with JUndefined | JNull => false | _ => true end.

Definition with_default (v d : JS) : JS :=
  match v with JUndefined => d | _ => v end.

End Js.
Export Js.

(** ** Strings *)

Module Str.

Definition code (c : ascii) : nat := nat_of_ascii c.

(** [\s] of a regular expression and the set [trim] removes: tab, line
    feed, vertical tab, form feed, carriage return, space, no-break
    space. *)
Definition is_space (c : ascii) : bool :=
  let n := code c in
  ((9 <=? n) && (n <=? 13)) || (n =? 32) || (n =? 160).

(** Line terminators, which [.] does not match. *)
Definition is_newline (c : ascii) : bool :=
  let n := code c in (n =? 10) || (n =? 13).

Definition chars (s : string) : list ascii := list_ascii_of_string s.
Definition of_chars (l : list ascii) : string := string_of_list_ascii l.

Fixpoint drop_spaces (l : list ascii) : list ascii :=
  match l with
  | c :: l' => if is_space c then drop_spaces l' else l
  | [] => []
  end.

Definition trim_chars (l : list ascii) : list ascii :=
  rev (drop_spaces (rev (drop_spaces l))).

(** [s.trim()] *)
Definition trim (s : string) : string := of_chars (trim_chars (chars s)).

(** [s.split(' ')]: cut at every single space; never the empty list. *)
Fixpoint split_space_aux (cur : list ascii) (l : list ascii) : list string :=
  match l with
  | [] => [of_chars (rev cur)]
  | c :: l' =>
      if Ascii.eqb c " "%char then of_chars (rev cur) :: split_space_aux [] l'
      else split_space_aux (c :: cur) l'
  end.

Definition split_space (s : string) : list string := split_space_aux [] (chars s).

(** [s.startsWith(p)] *)
Definition startsWith (s p : string) : bool := String.prefix p s.

(** [s.substring(0, n)] *)
Definition substring0 (n : nat) (s : string) : string := of_chars (take n (chars s)).

End Str.

(** ** The regular expressions of the source

    Each pattern of [server.js] is written out as the matcher the
    engine's backtracking search amounts to.  A matcher takes the text at
    a candidate start position and returns what follows the match. *)

Module Re.
Import Str.

Definition lower (c : ascii) : ascii :=
  let n := code c in
  if (65 <=? n) && (n <=? 90) then ascii_of_nat (n + 32) else c.

(** A literal, compared without regard to ASCII case (flag [i]). *)
Fixpoint lit_ci (p s : list ascii) : option (list ascii) :=
  match p, s with
  | [], _ => Some s
  | a :: p', b :: s' => if Ascii.eqb (lower a) (lower b) then lit_ci p' s' else None
  | _ :: _, [] => None
  end.

(** A literal, compared exactly. *)
Fixpoint lit (p s : list ascii) : option (list ascii) :=
  match p, s with
  | [], _ => Some s
  | a :: p', b :: s' => if Ascii.eqb a b then lit p' s' else None
  | _ :: _, [] => None
  end.

(** [[^>]*>]: the class cannot step over [>], so the only way to match
    is to run up to the first [>]. *)
Fixpoint to_gt (s : list ascii) : option (list ascii) :=
  match s with
  | [] => None
  | c :: s' => if Ascii.eqb c ">"%char then Some s' else to_gt s'
  end.

(** [.*?close]: the shortest run of characters other than line
    terminators that is followed by [close].  Returns the run and the
    text after [close]. *)
Fixpoint lazy_until (close s : list ascii) : option (list ascii * list ascii) :=
  match lit_ci close s with
  | Some rest => Some ([], rest)
  | None =>
      match s with
      | [] => None
      | c :: s' =>
          if is_newline c then None
          else match lazy_until close s' with
               | Some (run, rest) => Some (c :: run, rest)
               | None => None
               end
      end
  end.

(** [<name[^>]*>(.*?)</name>] with flag [i]. *)
Definition element (name : string) (s : list ascii) : option (list ascii * list ascii) :=
  match lit_ci ("<"%char :: chars name) s with
  | None => None
  | Some s1 =>
      match to_gt s1 with
      | None => None
      | Some s2 => lazy_until (chars "</" ++ chars name ++ [">"%char]) s2
      end
  end.

Definition element_end (name : string) (s : list ascii) : option (list ascii) :=
  snd <$> element name s.

(** [<[^>]*>] *)
Definition tag (s : list ascii) : option (list ascii) :=
  match s with
  | c :: s' => if Ascii.eqb c "<"%char then to_gt s' else None
  | [] => None
  end.

(** [\s+] *)
Definition spaces (s : list ascii) : option (list ascii) :=
  match s with
  | c :: s' => if is_space c then Some (drop_spaces s') else None
  | [] => None
  end.

(** [[:.]] *)
Definition colon_or_dot (s : list ascii) : option (list ascii) :=
  match s with
  | c :: s' => if Ascii.eqb c ":"%char || Ascii.eqb c "."%char then Some s' else None
  | [] => None
  end.

(** [s.replace(/re/g, repl)] for a pattern [m] that never matches the
    empty string: scan left to right; at a match emit [repl] and resume
    after it, otherwise copy one character.  [skip] counts the
    characters of the current match still to be passed over. *)
Fixpoint gsub (m : list ascii -> option (list ascii)) (repl : list ascii)
         (skip : nat) (s : list ascii) : list ascii :=
  match s with
  | [] => []
  | c :: s' =>
      match skip with
      | S k => gsub m repl k s'
      | O =>
          match m s with
          | Some rest => repl ++ gsub m repl (length s' - length rest) s'
          | None => c :: gsub m repl 0 s'
          end
      end
  end.

Definition replace_all (m : list ascii -> option (list ascii)) (repl : string) (s : string) : string :=
  of_chars (gsub m (chars repl) 0 (chars s)).

(** [s.match(/re/)]: the first group of the leftmost match. *)
Fixpoint first_group (m : list ascii -> option (list ascii * list ascii))
         (s : list ascii) : option (list ascii) :=
  match m s with
  | Some (g, _) => Some g
  | None => match s with
            | [] => None
            | _ :: s' => first_group m s'
            end
  end.

(** [s.replace(/^lit\s*/, '')], applied where [s] is known to start
    with [lit]. *)
Definition strip_open_fence (fence : string) (s : string) : string :=
  match lit (chars fence) (chars s) with
  | Some rest => of_chars (drop_spaces rest)
  | None => s
  end.

(** [s.replace(/\s*```$/, '')]: the leftmost match starts at the run of
    white space before a closing fence that ends the text. *)
Definition strip_close_fence (s : string) : string :=
  match lit (chars "```") (rev (chars s)) with
  | Some rest => of_chars (rev (drop_spaces rest))
  | None => s
  end.

(** [[a-z]+] *)
Fixpoint lower_run (s : list ascii) : list ascii :=
  match s with
  | c :: s' => let n := code c in
               if (97 <=? n) && (n <=? 122) then lower_run s' else s
  | [] => []
  end.

(** [s.replace(/^data:image\/[a-z]+;base64,/, '')] *)
Definition strip_data_url (s : string) : string :=
  match lit (chars "data:image/") (chars s) with
  | None => s
  | Some rest =>
      let rest' := lower_run rest in
      if length rest' <? length rest then
        match lit (chars ";base64,") rest' with
        | Some payload => of_chars payload
        | None => s
        end
      else s
  end.

End Re.

(** ** The outside world and the handler monad *)

Module Eff.

(** An outbound [fetch(url, { method, headers, body })].  [f_body] holds
    the value handed to [JSON.stringify]. *)
Record FetchRequest : Type := {
  f_url : JS;
  f_method : string;
  f_headers : list (string * string);
  f_body : option JS
}.

(** What the handlers read of a reply: [status], [text()] and [json()]
    (which rejects when the body is not JSON). *)
Record FetchResponse : Type := {
  r_status : nat;
  r_text : string;
  r_json : Outcome JS
}.

(** [response.ok] *)
Definition r_ok (r : FetchResponse) : bool :=
  (200 <=? r_status r) && (r_status r <? 300).

Inductive Event : Type :=
| EvFetch (r : FetchRequest)
| EvMkdir (dir : string)
| EvWrite (file : string) (data : string).

(** The collaborators of one request.  [net n] is the outcome of the
    [n]-th outbound request of the run (counting from 0): a transport
    failure with its message, or a reply.  Since a handler is
    deterministic in the replies it has seen, indexing by position loses
    no run. *)
Record World : Type := {
  net : nat -> string + FetchResponse;
  JSON_parse : string -> option JS;
  now_iso : string;
  type_error_text : string -> string;
  toString : JS -> string;
  cwd : string;
  path_join : string -> string -> string;
  existsSync : string -> bool;
  mkdirSync : string -> option string;
  writeFileSync : string -> string -> option string;
  base64_decode : string -> string
}.

Record St : Type := { trace : list Event; sent : nat }.

Definition start : St := {| trace := []; sent := 0 |}.

Definition M (A : Type) : Type := St -> Outcome A * St.

Definition ret {A} (a : A) : M A := fun st => (Ok a, st).
Definition throw {A} (e : Exn) : M A := fun st => (Throw e, st).
Definition bind {A B} (m : M A) (k : A -> M B) : M B :=
  fun st => match m st with
            | (Ok a, st') => k a st'
            | (Throw e, st') => (Throw e, st')
            end.
Definition lift {A} (o : Outcome A) : M A := fun st => (o, st).

(** [try { m } catch (error) { h error }] *)
Definition try_catch {A} (m : M A) (h : Exn -> M A) : M A :=
  fun st => match m st with
            | (Ok a, st') => (Ok a, st')
            | (Throw e, st') => h e st'
            end.

Definition emit (e : Event) : M unit :=
  fun st => (Ok tt, {| trace := trace st ++ [e]; sent := sent st |}).

Definition fetches (t : list Event) : list FetchRequest :=
  omap (fun e => match e with EvFetch r => Some r | _ => None end) t.

End Eff.
Export Eff.

Notation "x <- m ;; k" := (bind m (fun x => k))
  (at level 63, m at next level, right associativity, only parsing).
Notation "'obj' l" := (JObj l) (at level 10, only parsing).

(** The double quote, for the prompts that contain one. *)
Definition dq : string := String (ascii_of_nat 34) "".
Definition nl : string := String (ascii_of_nat 10) "".

(** ** server.js *)

Record Request : Type := { headers : gmap string string; body : JS }.
Record Response : Type := { status : nat; payload : JS }.

(** [res.status(n).json(b)] and [res.json(b)] *)
Definition status_json (n : nat) (b : JS) : Response := {| status := n; payload := b |}.
Definition json (b : JS) : Response := status_json 200 b.

Record Extracted : Type := { title : string; content : string; url : JS }.
Record SaveResult : Type := { success : bool; path : JS; filename : JS; error : JS }.

Inductive Gate : Type :=
| Next
| Respond (r : Response).

Section Server.
Import Str Re.

Variable w : World.
Variable env : gmap string string.

(** [error.message] *)
Definition message (e : Exn) : string :=
  match e with
  | Error m => m
  | TypeError site => type_error_text w site
  end.

(** [process.env.K] as a condition, and [process.env.K || d]. *)
Definition env_set (k : string) : bool :=
  match env !! k with
  | Some v => negb (String.eqb v "")
  | None => false
  end.
Definition env_or (k d : string) : string :=
  if env_set k then default d (env !! k) else d.
Definition env_get (k : string) : string :=
  match env !! k with Some v => v | None => "undefined" end.

Definition fetch (r : FetchRequest) : M FetchResponse :=
  fun st =>
    let st' := {| trace := trace st ++ [EvFetch r]; sent := S (sent st) |} in
    match net w (sent st) with
    | inl msg => (Throw (Error msg), st')
    | inr resp => (Ok resp, st')
    end.

Definition mkdir (dir : string) : M unit :=
  _ <- emit (EvMkdir dir) ;;
  match mkdirSync w dir with
  | Some msg => throw (Error msg)
  | None => ret tt
  end.

Definition write (file data : string) : M unit :=
  _ <- emit (EvWrite file data) ;;
  match writeFileSync w file data with
  | Some msg => throw (Error msg)
  | None => ret tt
  end.

(** A value spliced into a template literal. *)
Definition splice (v : JS) : string :=
  match v with JStr s => s | _ => toString w v end.

(** *** extractContentFromURL *)

Definition user_agent : string :=
  "Mozilla/5.0 (Macintosh; Intel Mac OS X 10_15_7) AppleWebKit/537.36 (KHTML, like Gecko) Chrome/91.0.4472.124 Safari/537.36".

Definition textContent (html : string) : string :=
  trim
    (replace_all spaces " "
       (replace_all tag " "
          (replace_all (element_end "style") ""
             (replace_all (element_end "script") "" html)))).

Definition titleOf (html : string) : string :=
  match first_group (element "title") (chars html) with
  | Some g => trim (of_chars g)
  | None => "Untitled"
  end.

Definition extractContentFromURL (url : JS) : M Extracted :=
  try_catch
    (response <- fetch {| f_url := url; f_method := "GET";
                          f_headers := [("User-Agent", user_agent)];
                          f_body := None |} ;;
     if negb (r_ok response)
     then throw (Error ("HTTP error! status: " +:+ pretty (r_status response)))
     else
       let html := r_text response in
       ret {| title := titleOf html;
              content := substring0 5000 (textContent html);
              url := url |})
    (fun error =>
       throw (Error ("Failed to extract content from URL: " +:+ message error))).

(** *** saveImageToFolder *)

Definition saveImageToFolder (base64Data : JS) (filename : string) : M SaveResult :=
  try_catch
    (let imagesDir := path_join w (cwd w) "ai_generated_images" in
     _ <- (if negb (existsSync w imagesDir) then mkdir imagesDir else ret tt) ;;
     base64 <- match base64Data with
               | JStr s => ret (strip_data_url s)
               | _ => throw (TypeError "base64Data.replace")
               end ;;
     let imagePath := path_join w imagesDir filename in
     _ <- write imagePath (base64_decode w base64) ;;
     ret {| success := true; path := JStr imagePath;
            filename := JStr filename; error := JUndefined |})
    (fun error =>
       ret {| success := false; path := JUndefined;
              filename := JUndefined; error := JStr (message error) |}).

(** *** authenticateToken *)

(** [authHeader && authHeader.split(' ')[1]]; [None] is [undefined]. *)
Definition bearer_token (authHeader : option string) : option string :=
  match authHeader with
  | None => None
  | Some h => if String.eqb h "" then Some "" else split_space h !! 1
  end.

Definition authenticateToken (req : Request) : Gate :=
  if negb (env_set "BE_TOKEN") then Next
  else
    let authHeader := headers req !! "authorization" in
    let token := bearer_token authHeader in
    match token with
    | Some t =>
        if String.eqb t "" || negb (String.eqb t (env_get "BE_TOKEN"))
        then Respond (status_json 401 (obj [("error", JStr "unauthorized")]))
        else Next
    | None => Respond (status_json 401 (obj [("error", JStr "unauthorized")]))
    end.

(** [app.post(path, authenticateToken, handler)] *)
Definition route (handler : Request -> M Response) (req : Request) : M Response :=
  match authenticateToken req with
  | Next => handler req
  | Respond r => ret r
  end.

(** *** POST /tools/summarize_article *)

Definition num (z : Z) : JS := JNum (Qmake z 1).

Definition systemPrompt : string :=
  "You are a news summarizer. Analyze the provided text and return ONLY a valid JSON object with these exact keys:" +:+ nl +:+
  "- summary_one_liner: A concise, neutral summary in one sentence" +:+ nl +:+
  "- visual_brief: A brief description for a lightly humorous, non-violent illustration" +:+ nl +:+
  "- image_prompt: A detailed prompt for generating the illustration" +:+ nl +:+
  "- action: Set to " +:+ dq +:+ "SKIP" +:+ dq +:+ " if content involves minors, death, sexual violence, or serious ongoing crimes; otherwise set to " +:+ dq +:+ "PROCEED" +:+ dq +:+ nl +:+
  nl +:+
  "Rules:" +:+ nl +:+
  "- Be neutral and factual in summary" +:+ nl +:+
  "- Anonymize any private individuals mentioned" +:+ nl +:+
  "- Keep visual brief light and humorous, never violent" +:+ nl +:+
  "- Return ONLY valid JSON, no prose or explanations" +:+ nl +:+
  "- If sensitive content detected, set action to " +:+ dq +:+ "SKIP" +:+ dq.

Definition requiredKeys : list string :=
  ["summary_one_liner"; "visual_brief"; "image_prompt"; "action"].

(** [keys.filter(key => !(key in v))] *)
Fixpoint missing (keys : list string) (v : JS) : Outcome (list string) :=
  match keys with
  | [] => Ok []
  | k :: ks =>
      match has_key k v with
      | Throw e => Throw e
      | Ok present =>
          match missing ks v with
          | Throw e => Throw e
          | Ok r => Ok (if present then r else k :: r)
          end
      end
  end.

(** [JSON.parse(s)], which throws a SyntaxError on anything else. *)
Definition parse (s : string) : M JS :=
  match JSON_parse w s with
  | Some v => ret v
  | None => throw (Error "Unexpected token")
  end.

(** [content.trim()] on a truthy value. *)
Definition trim_of (site : string) (v : JS) : M string :=
  match v with
  | JStr s => ret (trim s)
  | _ => throw (TypeError site)
  end.

(** The two fence-stripping steps of the summarizer. *)
Definition unfence (cleanContent : string) : string :=
  let c1 := if startsWith cleanContent "```json"
            then strip_close_fence (strip_open_fence "```json" cleanContent)
            else cleanContent in
  if startsWith c1 "```"
  then strip_close_fence (strip_open_fence "```" c1)
  else c1.

Definition chat_request (base : string) (key : string) (messages : list JS)
           (temperature : Q) (max_tokens : Z) : FetchRequest :=
  {| f_url := JStr (base +:+ "/chat/completions");
     f_method := "POST";
     f_headers := [("Content-Type", "application/json");
                   ("Authorization", "Bearer " +:+ key)];
     f_body := Some (obj [("model", JStr "gpt-4o-mini");
                          ("messages", JArr messages);
                          ("temperature", JNum temperature);
                          ("max_tokens", num max_tokens)]) |}.

Definition summarize_article (req : Request) : M Response :=
  try_catch
    (text <- lift (get_prop (body req) "text") ;;
     if negb (truthy text)
     then ret (status_json 400 (obj [("error", JStr "text is required")]))
     else if negb (env_set "OPENAI_API_KEY")
     then ret (status_json 500 (obj [("error", JStr "OpenAI API key not configured")]))
     else
       let openaiBaseUrl := env_or "OPENAI_BASE_URL" "https://api.openai.com/v1" in
       response <- fetch (chat_request openaiBaseUrl (env_get "OPENAI_API_KEY")
                            [obj [("role", JStr "system"); ("content", JStr systemPrompt)];
                             obj [("role", JStr "user"); ("content", text)]]
                            (Qmake 7 10) 500) ;;
       if negb (r_ok response)
       then
         let errorData := r_text response in
         ret (status_json (r_status response)
                (obj [("error", JStr ("OpenAI API error: " +:+ pretty (r_status response)));
                      ("details", JStr errorData)]))
       else
         data <- lift (r_json response) ;;
         choices <- lift (get_prop data "choices") ;;
         first <- lift (get_first choices) ;;
         let content := get_prop_opt (get_prop_opt first "message") "content" in
         if negb (truthy content)
         then ret (status_json 500 (obj [("error", JStr "No content received from OpenAI")]))
         else
           try_catch
             (trimmed <- trim_of "content.trim" content ;;
              let cleanContent := unfence trimmed in
              parsedContent <- parse cleanContent ;;
              missingKeys <- lift (missing requiredKeys parsedContent) ;;
              if 0 <? length missingKeys
              then ret (status_json 500
                          (obj [("error", JStr ("Invalid response format. Missing keys: "
                                                +:+ String.concat ", " missingKeys));
                                ("received", parsedContent)]))
              else ret (json parsedContent))
             (fun parseError =>
                ret (status_json 500
                       (obj [("error", JStr "Failed to parse OpenAI response as JSON");
                             ("raw_content", content)]))))
    (fun error => ret (status_json 500 (obj [("error", JStr (message error))]))).

(** *** POST /tools/fal_generate and /tools/fal_flux_lora_generate *)

Definition fal_request (endpoint : string) (falPayload : JS) : FetchRequest :=
  {| f_url := JStr endpoint;
     f_method := "POST";
     f_headers := [("Content-Type", "application/json");
                   ("Authorization", "Key " +:+ env_get "FAL_KEY")];
     f_body := Some falPayload |}.

(** The part the two image routes share word for word: check the
    provider reply, derive the file name, persist, answer. *)
Definition fal_finish (prefix : string) (response : FetchResponse) : M Response :=
  if negb (r_ok response)
  then
    let errorData := r_text response in
    ret (status_json (r_status response)
           (obj [("error", JStr ("FAL API error: " +:+ pretty (r_status response)));
                 ("fal", JStr errorData)]))
  else
    data <- lift (r_json response) ;;
    let no_image := status_json 500 (obj [("error", JStr "No image URL in FAL response");
                                          ("fal", data)]) in
    images <- lift (get_prop data "images") ;;
    if negb (truthy images) then ret no_image
    else
      image <- lift (get_first images) ;;
      if negb (truthy image) then ret no_image
      else
        image_url <- lift (get_prop image "url") ;;
        if negb (truthy image_url) then ret no_image
        else
          let timestamp := replace_all colon_or_dot "-" (now_iso w) in
          let filename := prefix +:+ timestamp +:+ ".jpg" in
          saveResult <- saveImageToFolder image_url filename ;;
          ret (json (obj [("image_url", image_url);
                          ("saved_to_file", if success saveResult then JStr filename else JNull);
                          ("save_error", js_or (error saveResult) JNull)])).

Definition fal_generate (req : Request) : M Response :=
  try_catch
    (prompt <- lift (get_prop (body req) "prompt") ;;
     let width := with_default (get_prop_opt (body req) "width") (num 1080) in
     let height := with_default (get_prop_opt (body req) "height") (num 1350) in
     let steps := with_default (get_prop_opt (body req) "steps") (num 28) in
     let guidance := with_default (get_prop_opt (body req) "guidance") (JNum (Qmake 7 2)) in
     let sync_mode := with_default (get_prop_opt (body req) "sync_mode") (JBool true) in
     if negb (truthy prompt)
     then ret (status_json 400 (obj [("error", JStr "prompt is required")]))
     else if negb (env_set "FAL_KEY")
     then ret (status_json 500 (obj [("error", JStr "FAL API key not configured")]))
     else
       let falPayload :=
         obj [("prompt", prompt);
              ("image_size", obj [("width", width); ("height", height)]);
              ("num_inference_steps", steps);
              ("guidance_scale", guidance);
              ("enable_safety_checker", JBool true);
              ("output_format", JStr "jpeg");
              ("sync_mode", sync_mode)] in
       response <- fetch (fal_request "https://fal.run/fal-ai/flux" falPayload) ;;
       fal_finish "generated_" response)
    (fun error => ret (status_json 500 (obj [("error", JStr (message error))]))).

Definition fal_flux_lora_generate (req : Request) : M Response :=
  try_catch
    (prompt <- lift (get_prop (body req) "prompt") ;;
     let loras := get_prop_opt (body req) "loras" in
     let width := with_default (get_prop_opt (body req) "width") (num 1080) in
     let height := with_default (get_prop_opt (body req) "height") (num 1350) in
     let steps := with_default (get_prop_opt (body req) "steps") (num 28) in
     let guidance := with_default (get_prop_opt (body req) "guidance") (JNum (Qmake 7 2)) in
     let sync_mode := with_default (get_prop_opt (body req) "sync_mode") (JBool true) in
     if negb (truthy prompt)
     then ret (status_json 400 (obj [("error", JStr "prompt is required")]))
     else if negb (truthy loras) || negb (isArray loras) || length_is_zero loras
     then ret (status_json 400 (obj [("error", JStr "loras array is required")]))
     else if negb (env_set "FAL_KEY")
     then ret (status_json 500 (obj [("error", JStr "FAL API key not configured")]))
     else
       let falPayload :=
         obj [("prompt", prompt);
              ("image_size", obj [("width", width); ("height", height)]);
              ("num_inference_steps", steps);
              ("guidance_scale", guidance);
              ("enable_safety_checker", JBool true);
              ("loras", loras);
              ("output_format", JStr "jpeg");
              ("sync_mode", sync_mode)] in
       response <- fetch (fal_request "https://fal.run/fal-ai/flux-lora" falPayload) ;;
       fal_finish "lora_" response)
    (fun error => ret (status_json 500 (obj [("error", JStr (message error))]))).

(** *** POST /tools/process_news_url *)

(** [process.env.PORT || 8787], as spliced into the loopback address. *)
Definition PORT : string := env_or "PORT" "8787".

Definition self_url : string :=
  env_or "RENDER_EXTERNAL_URL" ("http://localhost:" +:+ PORT).

(** The headers of a loopback call: the bearer secret is attached when
    one is configured. *)
Definition self_headers : list (string * string) :=
  ("Content-Type", "application/json") ::
  (if env_set "BE_TOKEN"
   then [("Authorization", "Bearer " +:+ env_get "BE_TOKEN")]
   else []).

Definition lora_path : string :=
  "https://v3.fal.media/files/lion/AXQzFziw_QBmQTQDRSmL8_pytorch_lora_weights.safetensors".

Definition captionPrompt (summary_one_liner : JS) : string :=
  "Create an engaging Instagram caption for this news summary. Make it:" +:+ nl +:+
  "    - Engaging and click-worthy" +:+ nl +:+
  "    - Include relevant hashtags" +:+ nl +:+
  "    - Keep it under 200 characters" +:+ nl +:+
  "    - Use emojis appropriately" +:+ nl +:+
  "    - Make it sound like Apple Daily style" +:+ nl +:+
  "    " +:+ nl +:+
  "    News summary: " +:+ splice summary_one_liner +:+ nl +:+
  "    " +:+ nl +:+
  "    Return ONLY the caption text, no additional text.".

(** [v === 'SKIP'] *)
Definition is_SKIP (v : JS) : bool :=
  match v with JStr s => String.eqb s "SKIP" | _ => false end.

(** [content?.trim()] *)
Definition trim_opt (site : string) (v : JS) : M JS :=
  match v with
  | JUndefined | JNull => ret JUndefined
  | JStr s => ret (JStr (trim s))
  | _ => throw (TypeError site)
  end.

(** Step 4 of the workflow: ask the text provider for a caption. *)
Definition caption_step (summaryData : JS) : M JS :=
  summary_one_liner <- lift (get_prop summaryData "summary_one_liner") ;;
  captionResponse <- fetch (chat_request
                              (env_or "OPENAI_BASE_URL" "https://api.openai.com/v1")
                              (env_get "OPENAI_API_KEY")
                              [obj [("role", JStr "user");
                                    ("content", JStr (captionPrompt summary_one_liner))]]
                              (Qmake 4 5) 200) ;;
  if negb (r_ok captionResponse)
  then throw (Error ("Caption generation failed: " +:+ pretty (r_status captionResponse)))
  else
    captionData <- lift (r_json captionResponse) ;;
    choices <- lift (get_prop captionData "choices") ;;
    first <- lift (get_first choices) ;;
    let content := get_prop_opt (get_prop_opt first "message") "content" in
    trimmed <- trim_opt "content.trim" content ;;
    ret (js_or trimmed summary_one_liner).

(** Step 3 of the workflow: the loopback call to the LoRA route. *)
Definition image_step (summaryData : JS) : M JS :=
  image_prompt <- lift (get_prop summaryData "image_prompt") ;;
  let loraPayload :=
    obj [("prompt", image_prompt);
         ("loras", JArr [obj [("path", JStr lora_path); ("scale", num 1)]])] in
  imageResponse <- fetch {| f_url := JStr (self_url +:+ "/tools/fal_flux_lora_generate");
                            f_method := "POST";
                            f_headers := self_headers;
                            f_body := Some loraPayload |} ;;
  if negb (r_ok imageResponse)
  then throw (Error ("Image generation failed: " +:+ pretty (r_status imageResponse)))
  else
    imageData <- lift (r_json imageResponse) ;;
    _ <- lift (get_prop imageData "saved_to_file") ;;
    ret imageData.

Definition process_news_url (req : Request) : M Response :=
  try_catch
    (url <- lift (get_prop (body req) "url") ;;
     if negb (truthy url)
     then ret (status_json 400 (obj [("error", JStr "url is required")]))
     else
       extractedContent <- extractContentFromURL url ;;
       summaryResponse <- fetch {| f_url := JStr (self_url +:+ "/tools/summarize_article");
                                   f_method := "POST";
                                   f_headers := self_headers;
                                   f_body := Some (obj [("text", JStr (content extractedContent))]) |} ;;
       if negb (r_ok summaryResponse)
       then throw (Error ("Summary failed: " +:+ pretty (r_status summaryResponse)))
       else
         summaryData <- lift (r_json summaryResponse) ;;
         _ <- lift (get_prop summaryData "summary_one_liner") ;;
         action <- lift (get_prop summaryData "action") ;;
         if is_SKIP action
         then ret (json (obj [("status", JStr "skipped");
                              ("reason", JStr "Content flagged as sensitive");
                              ("url", url);
                              ("title", JStr (title extractedContent))]))
         else
           imageData <- image_step summaryData ;;
           instagramCaption <- caption_step summaryData ;;
           summary <- lift (get_prop summaryData "summary_one_liner") ;;
           visual_brief <- lift (get_prop summaryData "visual_brief") ;;
           image_prompt <- lift (get_prop summaryData "image_prompt") ;;
           image_url <- lift (get_prop imageData "image_url") ;;
           saved_image <- lift (get_prop imageData "saved_to_file") ;;
           ret (json (obj [("status", JStr "success");
                           ("url", url);
                           ("title", JStr (title extractedContent));
                           ("summary", summary);
                           ("visual_brief", visual_brief);
                           ("image_prompt", image_prompt);
                           ("image_url", image_url);
                           ("saved_image", saved_image);
                           ("instagram_caption", instagramCaption);
                           ("timestamp", JStr (now_iso w))])))
    (fun error =>
       ret (status_json 500 (obj [("error", JStr (message error));
                                  ("status", JStr "failed")]))).

End Server.

(** ** ai-news-mcp-tools/server.js

    The second copy.  Its gate and its input validation are the same
    text as in [server.js]; the summarizer does not strip code fences and
    the LoRA route does not persist the image. *)

Module McpTools.
Section Server.

Variable w : World.
Variable env : gmap string string.

Definition authenticateToken (req : Request) : Gate :=
  if negb (env_set env "BE_TOKEN") then Next
  else
    let authHeader := headers req !! "authorization" in
    let token := bearer_token authHeader in
    match token with
    | Some t =>
        if String.eqb t "" || negb (String.eqb t (env_get env "BE_TOKEN"))
        then Respond (status_json 401 (obj [("error", JStr "unauthorized")]))
        else Next
    | None => Respond (status_json 401 (obj [("error", JStr "unauthorized")]))
    end.

Definition route (handler : Request -> M Response) (req : Request) : M Response :=
  match authenticateToken req with
  | Next => handler req
  | Respond r => ret r
  end.

Definition summarize_article (req : Request) : M Response :=
  try_catch
    (text <- lift (get_prop (body req) "text") ;;
     if negb (truthy text)
     then ret (status_json 400 (obj [("error", JStr "text is required")]))
     else if negb (env_set env "OPENAI_API_KEY")
     then ret (status_json 500 (obj [("error", JStr "OpenAI API key not configured")]))
     else
       let openaiBaseUrl := env_or env "OPENAI_BASE_URL" "https://api.openai.com/v1" in
       response <- fetch w (chat_request openaiBaseUrl (env_get env "OPENAI_API_KEY")
                              [obj [("role", JStr "system"); ("content", JStr systemPrompt)];
                               obj [("role", JStr "user"); ("content", text)]]
                              (Qmake 7 10) 500) ;;
       if negb (r_ok response)
       then
         let errorData := r_text response in
         ret (status_json (r_status response)
                (obj [("error", JStr ("OpenAI API error: " +:+ pretty (r_status response)));
                      ("details", JStr errorData)]))
       else
         data <- lift (r_json response) ;;
         choices <- lift (get_prop data "choices") ;;
         first <- lift (get_first choices) ;;
         let content := get_prop_opt (get_prop_opt first "message") "content" in
         if negb (truthy content)
         then ret (status_json 500 (obj [("error", JStr "No content received from OpenAI")]))
         else
           try_catch
             (text_in <- match content with
                         | JStr s => ret s
                         | _ => ret (toString w content)
                         end ;;
              parsedContent <- parse w text_in ;;
              missingKeys <- lift (missing requiredKeys parsedContent) ;;
              if 0 <? length missingKeys
              then ret (status_json 500
                          (obj [("error", JStr ("Invalid response format. Missing keys: "
                                                +:+ String.concat ", " missingKeys));
                                ("received", parsedContent)]))
              else ret (json parsedContent))
             (fun parseError =>
                ret (status_json 500
                       (obj [("error", JStr "Failed to parse OpenAI response as JSON");
                             ("raw_content", content)]))))
    (fun error => ret (status_json 500 (obj [("error", JStr (message w error))]))).

Definition fal_flux_lora_generate (req : Request) : M Response :=
  try_catch
    (prompt <- lift (get_prop (body req) "prompt") ;;
     let loras := get_prop_opt (body req) "loras" in
     let width := with_default (get_prop_opt (body req) "width") (num 1080) in
     let height := with_default (get_prop_opt (body req) "height") (num 1350) in
     let steps := with_default (get_prop_opt (body req) "steps") (num 28) in
     let guidance := with_default (get_prop_opt (body req) "guidance") (JNum (Qmake 7 2)) in
     let sync_mode := with_default (get_prop_opt (body req) "sync_mode") (JBool true) in
     if negb (truthy prompt)
     then ret (status_json 400 (obj [("error", JStr "prompt is required")]))
     else if negb (truthy loras) || negb (isArray loras) || length_is_zero loras
     then ret (status_json 400 (obj [("error", JStr "loras array is required")]))
     else if negb (env_set env "FAL_KEY")
     then ret (status_json 500 (obj [("error", JStr "FAL API key not configured")]))
     else
       let falPayload :=
         obj [("prompt", prompt);
              ("image_size", obj [("width", width); ("height", height)]);
              ("num_inference_steps", steps);
              ("guidance_scale", guidance);
              ("enable_safety_checker", JBool true);
              ("loras", loras);
              ("output_format", JStr "jpeg");
              ("sync_mode", sync_mode)] in
       response <- fetch w (fal_request env "https://fal.run/fal-ai/flux-lora" falPayload) ;;
       if negb (r_ok response)
       then
         let errorData := r_text response in
         ret (status_json (r_status response)
                (obj [("error", JStr ("FAL API error: " +:+ pretty (r_status response)));
                      ("fal", JStr errorData)]))
       else
         data <- lift (r_json response) ;;
         let no_image := status_json 500 (obj [("error", JStr "No image URL in FAL response");
                                               ("fal", data)]) in
         images <- lift (get_prop data "images") ;;
         if negb (truthy images) then ret no_image
         else
           image <- lift (get_first images) ;;
           if negb (truthy image) then ret no_image
           else
             image_url <- lift (get_prop image "url") ;;
             if negb (truthy image_url) then ret no_image
             else ret (json (obj [("image_url", image_url)])))
    (fun error => ret (status_json 500 (obj [("error", JStr (message w error))]))).

End Server.
End McpTools.

(** ** Stub collaborators

    Concrete worlds, environments and requests on which the handlers can
    be run. *)

Module Stub.

Definition tab : string := String (ascii_of_nat 9) "".

(** A world scripted by the list of provider replies and a table for
    [JSON.parse]; the file system accepts every write. *)
Definition world (replies : list FetchResponse) (table : list (string * JS)) : World :=
  {| net := fun n => match replies !! n with
                     | Some r => inr r
                     | None => inl "request failed, reason: connect ECONNREFUSED"
                     end;
     JSON_parse := fun s => assoc s table;
     now_iso := "2024-01-02T03:04:05.678Z";
     type_error_text := fun site => site +:+ " is not a function";
     toString := fun _ => "[object Object]";
     cwd := "/app";
     path_join := fun a b => a +:+ "/" +:+ b;
     existsSync := fun _ => true;
     mkdirSync := fun _ => None;
     writeFileSync := fun _ _ => None;
     base64_decode := fun s => s |}.

(** The same world with a disk that refuses every write. *)
Definition world_disk_full (replies : list FetchResponse) : World :=
  {| net := net (world replies []);
     JSON_parse := JSON_parse (world replies []);
     now_iso := now_iso (world replies []);
     type_error_text := type_error_text (world replies []);
     toString := toString (world replies []);
     cwd := "/app";
     path_join := path_join (world replies []);
     existsSync := fun _ => true;
     mkdirSync := fun _ => None;
     writeFileSync := fun _ _ => Some "ENOSPC: no space left on device, write";
     base64_decode := fun s => s |}.

Definition reply (status : nat) (text : string) (data : JS) : FetchResponse :=
  {| r_status := status; r_text := text; r_json := Ok data |}.

(** A chat-completions reply whose first choice carries [content]. *)
Definition chat_reply (content : JS) : FetchResponse :=
  reply 200 "" (obj [("choices", JArr [obj [("message", obj [("role", JStr "assistant");
                                                           ("content", content)])]])]).

(** An image-provider reply with one image. *)
Definition image_reply (image_url : string) : FetchResponse :=
  reply 200 "" (obj [("images", JArr [obj [("url", JStr image_url)]])]).

Definition env_open : gmap string string :=
  {[ "OPENAI_API_KEY" := "sk-test"; "FAL_KEY" := "fal-test" ]}.

Definition env_secret : gmap string string :=
  <[ "BE_TOKEN" := "s3cret" ]> env_open.

Definition post (b : JS) : Request := {| headers := ∅; body := b |}.

Definition post_auth (authorization : string) (b : JS) : Request :=
  {| headers := {[ "authorization" := authorization ]}; body := b |}.

(** Summarizer replies, as text and as the value [JSON.parse] yields. *)
Definition q (s : string) : string := dq +:+ s +:+ dq.

Definition five_keys_text : string :=
  "{" +:+ q "summary_one_liner" +:+ ":" +:+ q "S" +:+ ","
      +:+ q "visual_brief" +:+ ":" +:+ q "V" +:+ ","
      +:+ q "image_prompt" +:+ ":" +:+ q "P" +:+ ","
      +:+ q "action" +:+ ":" +:+ q "PROCEED" +:+ ","
      +:+ q "mood" +:+ ":" +:+ q "calm" +:+ "}".

Definition five_keys : JS :=
  obj [("summary_one_liner", JStr "S"); ("visual_brief", JStr "V");
       ("image_prompt", JStr "P"); ("action", JStr "PROCEED"); ("mood", JStr "calm")].

Definition no_action_text : string :=
  "{" +:+ q "summary_one_liner" +:+ ":" +:+ q "S" +:+ ","
      +:+ q "visual_brief" +:+ ":" +:+ q "V" +:+ ","
      +:+ q "image_prompt" +:+ ":" +:+ q "P" +:+ "}".

Definition no_action : JS :=
  obj [("summary_one_liner", JStr "S"); ("visual_brief", JStr "V");
       ("image_prompt", JStr "P")].

Definition summary_of (action : string) : JS :=
  obj [("summary_one_liner", JStr "S"); ("visual_brief", JStr "V");
       ("image_prompt", JStr "P"); ("action", JStr action)].

(** Two pages that differ only in the line breaks inside the script
    element. *)
Definition page_one_line : string :=
  "<html><head><title>News</title><script>var x = 1;</script></head>"
  +:+ "<body><p>Hello</p></body></html>".

Definition page_multi_line : string :=
  "<html><head><title>News</title><script>" +:+ nl +:+ "var x = 1;" +:+ nl
  +:+ "</script></head><body><p>Hello</p></body></html>".

Definition article : JS := JStr "https://example.com/a".

(** Scripts of replies for the workflow: page, summarizer, image route,
    caption. *)
Definition skip_replies : list FetchResponse :=
  [reply 200 page_one_line JNull; reply 200 "" (summary_of "SKIP")].

Definition image_data : JS :=
  obj [("image_url", JStr "https://x/y.jpg"); ("saved_to_file", JStr "lora_1.jpg");
       ("save_error", JNull)].

Definition full_replies (answer : JS) : list FetchResponse :=
  [reply 200 page_one_line JNull; reply 200 "" (summary_of "PROCEED");
   reply 200 "" image_data; chat_reply answer].

End Stub.

(** ** The description's wording, for comparison with the code *)

Module Wording.
Import Str Re.

(** The tokens of a header value separated by white space, as the
    description of the gate has it: maximal runs of characters that are
    not white space. *)
Fixpoint ws_tokens_aux (cur : list ascii) (l : list ascii) : list string :=
  match l with
  | [] => match cur with [] => [] | _ => [of_chars (rev cur)] end
  | c :: l' =>
      if is_space c
      then match cur with
           | [] => ws_tokens_aux [] l'
           | _ => of_chars (rev cur) :: ws_tokens_aux [] l'
           end
      else ws_tokens_aux (c :: cur) l'
  end.

Definition ws_tokens (h : string) : list string := ws_tokens_aux [] (chars h).

(** The summarizer's acceptance test as the data model words it: the
    reply has exactly the four keys, no more and no fewer. *)
Definition exactly_four_keys (v : JS) : bool :=
  match v with
  | JObj fields =>
      forallb (fun k => bool_decide (is_Some (assoc k fields))) requiredKeys
      && forallb (fun kv => bool_decide (fst kv ∈ requiredKeys)) fields
  | _ => false
  end.

(** A script or style block as the extractor is described: from the
    opening tag to the first closing tag, whatever lies between, line
    breaks included. *)
Fixpoint until_close (close s : list ascii) : option (list ascii) :=
  match lit_ci close s with
  | Some rest => Some rest
  | None => match s with
            | [] => None
            | _ :: s' => until_close close s'
            end
  end.

Definition block_end (name : string) (s : list ascii) : option (list ascii) :=
  match lit_ci ("<"%char :: chars name) s with
  | None => None
  | Some s1 =>
      match to_gt s1 with
      | None => None
      | Some s2 => until_close (chars "</" ++ chars name ++ [">"%char]) s2
      end
  end.

(** The text of a document with every script and style block stripped,
    every remaining tag stripped and white space collapsed. *)
Definition textContent (html : string) : string :=
  trim
    (replace_all spaces " "
       (replace_all tag " "
          (replace_all (block_end "style") ""
             (replace_all (block_end "script") "" html)))).

End Wording.

(** ** What a run is observed to do *)

Module Obs.

Definition unauthorized : Response :=
  status_json 401 (obj [("error", JStr "unauthorized")]).

Definition text_is_required : Response :=
  status_json 400 (obj [("error", JStr "text is required")]).

Definition loras_array_is_required : Response :=
  status_json 400 (obj [("error", JStr "loras array is required")]).

(** A computation only ever adds to the trace. *)
Definition extends {A} (m : M A) : Prop :=
  forall st, exists more, trace (m st).2 = trace st ++ more.

(** A provider reply with a success status and a JSON body. *)
Definition reply_json (r : FetchResponse) (data : JS) : Prop :=
  r_ok r = true /\ r_json r = Ok data.

(** [data.choices[0]?.message?.content] evaluates to [content]. *)
Definition first_choice_content (data content : JS) : Prop :=
  exists choices first : JS,
    get_prop data "choices" = Ok choices
    /\ get_first choices = Ok first
    /\ get_prop_opt (get_prop_opt first "message") "content" = content.

(** [data.images[0].url] exists and is [u]. *)
Definition reply_has_image (response : FetchResponse) (u : JS) : Prop :=
  r_ok response = true
  /\ exists data images image : JS,
      r_json response = Ok data
      /\ get_prop data "images" = Ok images /\ truthy images = true
      /\ get_first images = Ok image /\ truthy image = true
      /\ get_prop image "url" = Ok u /\ truthy u = true.

(** The two shapes [saveImageToFolder] returns. *)
Definition saved_as (imagePath filename : string) : SaveResult :=
  {| success := true; path := JStr imagePath; filename := JStr filename;
     error := JUndefined |}.

Definition save_failed (m : string) : SaveResult :=
  {| success := false; path := JUndefined; filename := JUndefined; error := JStr m |}.

Definition filename_for (w : World) (prefix : string) : string :=
  prefix +:+ Re.replace_all Re.colon_or_dot "-" (now_iso w) +:+ ".jpg".

(** Persisting [u] under [fname] fails with message [m]. *)
Definition persist_fails (w : World) (u : JS) (fname m : string) : Prop :=
  forall st, exists st', saveImageToFolder w u fname st = (Ok (save_failed m), st').

(** The answer of an image route whose image could not be stored. *)
Definition degraded (u : JS) (m : string) : Response :=
  json (obj [("image_url", u); ("saved_to_file", JNull); ("save_error", JStr m)]).

(** [sent] is what the payload carries for a field the body holds as
    [supplied]: the default when the field is [undefined], the supplied
    value otherwise. *)
Definition forwarded (supplied fallback sent : JS) : Prop :=
  (supplied = JUndefined -> sent = fallback)
  /\ (supplied <> JUndefined -> sent = supplied).

Definition fal_payload (prompt width height steps guidance sync_mode : JS) : JS :=
  obj [("prompt", prompt);
       ("image_size", obj [("width", width); ("height", height)]);
       ("num_inference_steps", steps);
       ("guidance_scale", guidance);
       ("enable_safety_checker", JBool true);
       ("output_format", JStr "jpeg");
       ("sync_mode", sync_mode)].

Definition lora_payload (prompt loras width height steps guidance sync_mode : JS) : JS :=
  obj [("prompt", prompt);
       ("image_size", obj [("width", width); ("height", height)]);
       ("num_inference_steps", steps);
       ("guidance_scale", guidance);
       ("enable_safety_checker", JBool true);
       ("loras", loras);
       ("output_format", JStr "jpeg");
       ("sync_mode", sync_mode)].

(** A text without line terminators. *)
Definition one_line (l : list ascii) : Prop :=
  Forall (fun c => Str.is_newline c = false) l.

(** Parsed replies on which the [in] operator is defined. *)
Definition is_container (v : JS) : bool :=
  match v with JObj _ | JArr _ => true | _ => false end.

Definition has (v : JS) (k : string) : bool :=
  match v with
  | JObj fields => bool_decide (is_Some (assoc k fields))
  | _ => false
  end.

Definition absent_keys (v : JS) : list string :=
  List.filter (fun k => negb (has v k)) requiredKeys.

Definition invalid_format (v : JS) : Response :=
  status_json 500
    (obj [("error", JStr ("Invalid response format. Missing keys: "
                          +:+ String.concat ", " (absent_keys v)));
          ("received", v)]).

(** The requests and answers of the workflow. *)
Definition article_request (url : JS) : FetchRequest :=
  {| f_url := url; f_method := "GET";
     f_headers := [("User-Agent", user_agent)]; f_body := None |}.

Definition summary_request (env : gmap string string) (text : string) : FetchRequest :=
  {| f_url := JStr (self_url env +:+ "/tools/summarize_article");
     f_method := "POST";
     f_headers := self_headers env;
     f_body := Some (obj [("text", JStr text)]) |}.

Definition extracted (url : JS) (html : string) : Extracted :=
  {| title := titleOf html; content := Str.substring0 5000 (textContent html); url := url |}.

Definition skipped (url : JS) (title : string) : Response :=
  json (obj [("status", JStr "skipped");
             ("reason", JStr "Content flagged as sensitive");
             ("url", url);
             ("title", JStr title)]).

Definition workflow_success (url : JS) (title : string) (summaryData imageData caption : JS)
           (timestamp : string) : Response :=
  json (obj [("status", JStr "success");
             ("url", url);
             ("title", JStr title);
             ("summary", get_prop_opt summaryData "summary_one_liner");
             ("visual_brief", get_prop_opt summaryData "visual_brief");
             ("image_prompt", get_prop_opt summaryData "image_prompt");
             ("image_url", get_prop_opt imageData "image_url");
             ("saved_image", get_prop_opt imageData "saved_to_file");
             ("instagram_caption", caption);
             ("timestamp", JStr timestamp)]).

End Obs.
Export Obs.

(** ** Further vocabulary: texts, events, answers *)

Module Vocab.
Import Str.

Definition spaceless (l : list ascii) : Prop := " "%char ∉ l.

(** White space collapsed: the only white-space character is the space
    and no two spaces are adjacent. *)
Fixpoint no_double_space (l : list ascii) : Prop :=
  match l with
  | c :: (d :: _) as l' => ~ (c = " "%char /\ d = " "%char) /\ no_double_space l'
  | _ => True
  end.

Definition single_spaced (l : list ascii) : Prop :=
  (forall c, c ∈ l -> is_space c = true -> c = " "%char) /\ no_double_space l.

Definition no_leading_space (l : list ascii) : Prop :=
  forall c l', l = c :: l' -> is_space c = false.

Definition no_trailing_space (l : list ascii) : Prop :=
  forall c l', l = l' ++ [c] -> is_space c = false.

(** No tag is left: no [<] is followed, anywhere later, by a [>]. *)
Fixpoint tagless (l : list ascii) : Prop :=
  match l with
  | [] => True
  | c :: l' => (c = "<"%char -> ">"%char ∉ l') /\ tagless l'
  end.

(** The reference reading of [s.replace(/\s+/g, ' ')]: one space per run
    of white space.  [in_run] tells that the previous character was
    white space. *)
Fixpoint collapse (in_run : bool) (l : list ascii) : list ascii :=
  match l with
  | [] => []
  | c :: l' =>
      if is_space c
      then if in_run then collapse true l' else " "%char :: collapse true l'
      else c :: collapse false l'
  end.

Definition lowercase (l : list ascii) : Prop :=
  Forall (fun c => ((97 <=? code c) && (code c <=? 122)) = true) l.
Definition is_write (e : Event) : bool :=
  match e with EvWrite _ _ => true | _ => false end.
Definition is_mkdir (e : Event) : bool :=
  match e with EvMkdir _ => true | _ => false end.
Definition imagesDir (w : World) : string := path_join w (cwd w) "ai_generated_images".

Definition is_fetch (e : Event) : bool :=
  match e with EvFetch _ => true | _ => false end.
Definition is_disk (e : Event) : bool := negb (is_fetch e).

(** From every state the computation adds at most [n] events that the
    test [c] counts. *)
Definition adds (c : Event -> bool) (n : nat) {A} (m : M A) : Prop :=
  forall st, exists more,
    trace (m st).2 = trace st ++ more /\ length (List.filter c more) <= n.

Definition sent_one (st : St) (r : FetchRequest) : St :=
  {| trace := trace st ++ [EvFetch r]; sent := S (sent st) |}.

Definition summarizer_request (env : gmap string string) (text : JS) : FetchRequest :=
  chat_request (env_or env "OPENAI_BASE_URL" "https://api.openai.com/v1")
    (env_get env "OPENAI_API_KEY")
    [obj [("role", JStr "system"); ("content", JStr systemPrompt)];
     obj [("role", JStr "user"); ("content", text)]]
    (Qmake 7 10) 500.

Definition failed (m : string) : Response :=
  status_json 500 (obj [("error", JStr m); ("status", JStr "failed")]).

Definition upstream_error (label field : string) (r : FetchResponse) : Response :=
  status_json (r_status r)
    (obj [("error", JStr (label +:+ pretty (r_status r))); (field, JStr (r_text r))]).

Definition parse_failure (content : JS) : Response :=
  status_json 500 (obj [("error", JStr "Failed to parse OpenAI response as JSON");
                        ("raw_content", content)]).

Definition no_image (data : JS) : Response :=
  status_json 500 (obj [("error", JStr "No image URL in FAL response"); ("fal", data)]).

(** [data.images[0].url] is missing at some level. *)
Definition lacks_image (data : JS) : Prop :=
  exists images,
    get_prop data "images" = Ok images
    /\ (truthy images = false
        \/ exists image, get_first images = Ok image
                         /\ (truthy image = false
                             \/ exists u, get_prop image "url" = Ok u /\ truthy u = false)).

Definition prompt_is_required : Response :=
  status_json 400 (obj [("error", JStr "prompt is required")]).

Definition fal_key_missing : Response :=
  status_json 500 (obj [("error", JStr "FAL API key not configured")]).

(** The payloads the image routes build from a request body. *)
Definition fal_payload_of (b : JS) : JS :=
  fal_payload (get_prop_opt b "prompt")
    (with_default (get_prop_opt b "width") (num 1080))
    (with_default (get_prop_opt b "height") (num 1350))
    (with_default (get_prop_opt b "steps") (num 28))
    (with_default (get_prop_opt b "guidance") (JNum (Qmake 7 2)))
    (with_default (get_prop_opt b "sync_mode") (JBool true)).

Definition lora_payload_of (b : JS) : JS :=
  lora_payload (get_prop_opt b "prompt") (get_prop_opt b "loras")
    (with_default (get_prop_opt b "width") (num 1080))
    (with_default (get_prop_opt b "height") (num 1350))
    (with_default (get_prop_opt b "steps") (num 28))
    (with_default (get_prop_opt b "guidance") (JNum (Qmake 7 2)))
    (with_default (get_prop_opt b "sync_mode") (JBool true)).

Definition flux_request (env : gmap string string) (b : JS) : FetchRequest :=
  fal_request env "https://fal.run/fal-ai/flux" (fal_payload_of b).

Definition flux_lora_request (env : gmap string string) (b : JS) : FetchRequest :=
  fal_request env "https://fal.run/fal-ai/flux-lora" (lora_payload_of b).

(** [loras] is an array with at least one entry. *)
Definition loras_given (b : JS) : Prop :=
  isArray (get_prop_opt b "loras") = true /\ length_is_zero (get_prop_opt b "loras") = false.

Definition saved_answer (u : JS) (fname : string) : Response :=
  json (obj [("image_url", u); ("saved_to_file", JStr fname); ("save_error", JNull)]).

(** [c] with colons and dots turned into dashes. *)
Definition dash (c : ascii) : ascii :=
  if Ascii.eqb c ":"%char || Ascii.eqb c "."%char then "-"%char else c.

(** The body of the workflow's call to the LoRA route. *)
Definition workflow_lora_body (image_prompt : JS) : JS :=
  obj [("prompt", image_prompt);
       ("loras", JArr [obj [("path", JStr lora_path); ("scale", num 1)]])].

Definition lora_self_request (env : gmap string string) (image_prompt : JS) : FetchRequest :=
  {| f_url := JStr (self_url env +:+ "/tools/fal_flux_lora_generate");
     f_method := "POST";
     f_headers := self_headers env;
     f_body := Some (workflow_lora_body image_prompt) |}.

Definition caption_request (w : World) (env : gmap string string)
           (summary_one_liner : JS) : FetchRequest :=
  chat_request (env_or env "OPENAI_BASE_URL" "https://api.openai.com/v1")
    (env_get env "OPENAI_API_KEY")
    [obj [("role", JStr "user");
          ("content", JStr (captionPrompt w summary_one_liner))]]
    (Qmake 4 5) 200.

Definition url_is_required : Response :=
  status_json 400 (obj [("error", JStr "url is required")]).

(** The state of a workflow run after its first requests. *)
Definition after_page (url : JS) : St :=
  {| trace := [EvFetch (article_request url)]; sent := 1 |}.

Definition after_summary (env : gmap string string) (url : JS) (page : FetchResponse) : St :=
  {| trace := [EvFetch (article_request url);
               EvFetch (summary_request env (content (extracted url (r_text page))))];
     sent := 2 |}.

Definition after_image (env : gmap string string) (url : JS) (page : FetchResponse)
           (sd : JS) : St :=
  {| trace := [EvFetch (article_request url);
               EvFetch (summary_request env (content (extracted url (r_text page))));
               EvFetch (lora_self_request env (get_prop_opt sd "image_prompt"))];
     sent := 3 |}.

Definition after_caption (w : World) (env : gmap string string) (url : JS)
           (page : FetchResponse) (sd : JS) : St :=
  {| trace := [EvFetch (article_request url);
               EvFetch (summary_request env (content (extracted url (r_text page))));
               EvFetch (lora_self_request env (get_prop_opt sd "image_prompt"));
               EvFetch (caption_request w env (get_prop_opt sd "summary_one_liner"))];
     sent := 4 |}.

(** Further stubs: a provider that is overloaded, a secret with a space
    in it, a page served alone. *)
Definition busy : FetchResponse := Stub.reply 503 "overloaded" JNull.

Definition env_spaced : gmap string string :=
  <[ "BE_TOKEN" := "my secret" ]> Stub.env_open.

Definition env_bare : gmap string string := ∅.

Definition page_reply : FetchResponse := Stub.reply 200 Stub.page_one_line JNull.

Definition data_url : string := "data:image/jpeg;base64,AAAA".

End Vocab.
Export Vocab.

(** ** Reasoning about runs *)

Ltac run_unfold :=
  cbv beta iota zeta delta [bind lift ret throw try_catch emit route McpTools.route].

(** One step of a run past a binding whose value is known. *)
Ltac step := change (bind (lift (Ok ?a)) ?k) with (k a); cbv beta.

Create HintDb run_extends.

(** * Properties *)

(** ** Values *)

Lemma destructure_ok (v : JS) (k : string) :
  destructurable v = true ->
  get_prop v k = Ok (get_prop_opt v k).
Proof. destruct v; simpl; try discriminate; intros _; reflexivity. Qed.

Lemma with_default_forwarded (v d : JS) : forwarded v d (with_default v d).
Proof. split; intros H; destruct v; simpl; congruence. Qed.

Lemma missing_container (v : JS) (keys : list string) :
  is_container v = true ->
  missing keys v = Ok (List.filter (fun k => negb (has v k)) keys).
Proof.
  intros Hv. induction keys as [| k ks IH]; [reflexivity |].
  cbn [missing List.filter]. rewrite IH.
  destruct v; try discriminate; cbn [has_key has];
    [reflexivity | destruct (bool_decide _); reflexivity].
Qed.

Lemma length_of_chars (l : list ascii) :
  String.length (Str.of_chars l) = length l.
Proof. induction l as [| c l IH]; simpl; [reflexivity | by rewrite IH]. Qed.

(** ** The monad of runs *)

Section Runs.

Variable w : World.

Lemma extends_ret {A} (a : A) : extends (ret a).
Proof. intros st. exists []. simpl. by rewrite app_nil_r. Qed.

Lemma extends_throw {A} (e : Exn) : extends (@throw A e).
Proof. intros st. exists []. simpl. by rewrite app_nil_r. Qed.

Lemma extends_lift {A} (o : Outcome A) : extends (lift o).
Proof. intros st. exists []. simpl. by rewrite app_nil_r. Qed.

Lemma extends_emit (e : Event) : extends (emit e).
Proof. intros st. by exists [e]. Qed.

Lemma extends_fetch (r : FetchRequest) : extends (fetch w r).
Proof. intros st. exists [EvFetch r]. unfold fetch. by destruct (net w (sent st)). Qed.

Lemma extends_bind {A B} (m : M A) (k : A -> M B) :
  extends m -> (forall a, extends (k a)) -> extends (bind m k).
Proof.
  intros Hm Hk st. unfold bind. destruct (Hm st) as [m1 H1].
  destruct (m st) as [[a | e] st1]; simpl in *.
  - destruct (Hk a st1) as [m2 H2]. exists (m1 ++ m2). by rewrite H2, H1, app_assoc.
  - by exists m1.
Qed.

Lemma extends_try_catch {A} (m : M A) (h : Exn -> M A) :
  extends m -> (forall e, extends (h e)) -> extends (try_catch m h).
Proof.
  intros Hm Hh st. unfold try_catch. destruct (Hm st) as [m1 H1].
  destruct (m st) as [[a | e] st1]; simpl in *.
  - by exists m1.
  - destruct (Hh e st1) as [m2 H2]. exists (m1 ++ m2). by rewrite H2, H1, app_assoc.
Qed.

Lemma fetch_reply (r : FetchRequest) (a : FetchResponse) (st : St) :
  net w (sent st) = inr a ->
  fetch w r st = (Ok a, {| trace := trace st ++ [EvFetch r]; sent := S (sent st) |}).
Proof. intros H. unfold fetch. by rewrite H. Qed.

(** A handler whose [catch] answers never throws. *)
Lemma try_catch_total {A} (m : M A) (f : Exn -> A) (st : St) :
  exists a st', try_catch m (fun e => ret (f e)) st = (Ok a, st').
Proof. unfold try_catch. destruct (m st) as [[a | e] st']; eauto. Qed.

(** A guarded computation that starts with a request has that request
    at the head of its trace, whatever comes back. *)
Lemma fetch_then {A} (r : FetchRequest) (k : FetchResponse -> M A) (h : Exn -> M A) :
  (forall a, extends (k a)) -> (forall e, extends (h e)) ->
  exists more, trace (try_catch (bind (fetch w r) k) h start).2 = EvFetch r :: more.
Proof.
  intros Hk Hh. unfold try_catch, bind, fetch. simpl.
  destruct (net w 0) as [msg | a].
  - destruct (Hh (Error msg) {| trace := [EvFetch r]; sent := 1 |}) as [more H].
    exists more. exact H.
  - destruct (Hk a {| trace := [EvFetch r]; sent := 1 |}) as [more H].
    destruct (k a _) as [[x | e] st1]; simpl in *.
    + exists more. exact H.
    + destruct (Hh e st1) as [more' H']. exists (more ++ more').
      rewrite H', H. reflexivity.
Qed.

End Runs.

#[global] Hint Resolve extends_ret extends_throw extends_lift extends_emit
  extends_fetch : run_extends.

Ltac extends_tac :=
  repeat first
    [ solve [auto with run_extends]
    | apply extends_bind; [| intros ?]
    | apply extends_try_catch; [| intros ?]
    | match goal with
      | |- extends (if ?b then _ else _) => destruct b
      | |- extends (match ?x with _ => _ end) => destruct x
      end ].

(** ** The authentication gate *)

Section Gate.

Variable env : gmap string string.

Lemma env_set_some (k v : string) :
  env !! k = Some v -> v <> "" -> env_set env k = true /\ env_get env k = v.
Proof.
  intros H Hne. unfold env_set, env_get. rewrite H. split; [| done].
  destruct (String.eqb_spec v ""); [contradiction | done].
Qed.

Lemma env_set_unset (k : string) :
  env !! k = None \/ env !! k = Some "" -> env_set env k = false.
Proof. unfold env_set. by intros [-> | ->]. Qed.

Lemma gates_agree (req : Request) :
  McpTools.authenticateToken env req = authenticateToken env req.
Proof. reflexivity. Qed.

Lemma gate_rejects (req : Request) (secret : string) :
  env !! "BE_TOKEN" = Some secret -> secret <> "" ->
  bearer_token (headers req !! "authorization") <> Some secret ->
  authenticateToken env req = Respond unauthorized.
Proof.
  intros Hs Hne Htok. unfold authenticateToken.
  destruct (env_set_some _ _ Hs Hne) as [-> ->]. simpl.
  destruct (bearer_token _) as [t |]; [| done].
  destruct (String.eqb_spec t ""); [done |]. simpl.
  destruct (String.eqb_spec t secret); [congruence | done].
Qed.

Lemma gate_accepts (req : Request) (secret : string) :
  env !! "BE_TOKEN" = Some secret -> secret <> "" ->
  bearer_token (headers req !! "authorization") = Some secret ->
  authenticateToken env req = Next.
Proof.
  intros Hs Hne Htok. unfold authenticateToken.
  destruct (env_set_some _ _ Hs Hne) as [-> ->]. simpl. rewrite Htok.
  destruct (String.eqb_spec secret ""); [contradiction |]. simpl.
  by rewrite String.eqb_refl.
Qed.

Lemma gate_open (req : Request) :
  env !! "BE_TOKEN" = None \/ env !! "BE_TOKEN" = Some "" ->
  authenticateToken env req = Next.
Proof. intros H. unfold authenticateToken. by rewrite (env_set_unset _ H). Qed.

(** C2.  With a secret configured, a request to a gated route whose
    bearer token is missing or differs from the secret is answered 401
    with the body [{error: unauthorized}], whatever the handler is and
    without any effect: the handler does not run.  With no secret
    configured (unset or empty) the gated route is the handler itself.
    Both copies of the server behave so. *)
Theorem gate_unauthorized_or_open
    (handler : Request -> M Response) (req : Request) (st : St) :
  (forall secret : string,
      env !! "BE_TOKEN" = Some secret -> secret <> "" ->
      (bearer_token (headers req !! "authorization") = None
       \/ exists t, bearer_token (headers req !! "authorization") = Some t /\ t <> secret) ->
      route env handler req st = (Ok unauthorized, st)
      /\ McpTools.route env handler req st = (Ok unauthorized, st))
  /\ (env !! "BE_TOKEN" = None \/ env !! "BE_TOKEN" = Some "" ->
      route env handler req = handler req
      /\ McpTools.route env handler req = handler req).
Proof.
  split.
  - intros secret Hs Hne Htok.
    assert (Hr : authenticateToken env req = Respond unauthorized).
    { apply (gate_rejects req secret Hs Hne).
      destruct Htok as [-> | (t & -> & Ht)]; congruence. }
    unfold route, McpTools.route.
    change (McpTools.authenticateToken env req) with (authenticateToken env req).
    rewrite Hr. done.
  - intros Hoff. unfold route, McpTools.route.
    change (McpTools.authenticateToken env req) with (authenticateToken env req).
    rewrite (gate_open req Hoff). done.
Qed.

(** C9, as amended.  With a secret configured, the gate reads the second
    piece of the Authorization header cut at every single space
    character: a header whose second piece equals the secret passes,
    whatever its first piece is, and a header with no second piece is
    answered 401. *)
Theorem gate_reads_second_space_piece (req : Request) (secret h : string) :
  env !! "BE_TOKEN" = Some secret -> secret <> "" ->
  headers req !! "authorization" = Some h ->
  (Str.split_space h !! 1 = Some secret ->
   authenticateToken env req = Next /\ McpTools.authenticateToken env req = Next)
  /\ (Str.split_space h !! 1 = None ->
      authenticateToken env req = Respond unauthorized
      /\ McpTools.authenticateToken env req = Respond unauthorized).
Proof.
  intros Hs Hne Hh.
  change (McpTools.authenticateToken env req) with (authenticateToken env req).
  split; intros Hp.
  - split; apply (gate_accepts req secret Hs Hne); rewrite Hh; unfold bearer_token;
      (destruct (String.eqb_spec h ""); [subst h; discriminate | done]).
  - split; apply (gate_rejects req secret Hs Hne); rewrite Hh; unfold bearer_token;
      (destruct (String.eqb_spec h ""); [congruence | rewrite Hp; done]).
Qed.

End Gate.

Section GateExamples.
Import Stub.

Lemma gate_unauthorized_or_open_witness :
  route env_secret (summarize_article (world [] []) env_secret)
        (post_auth "Bearer wrong" (obj [("text", JStr "news")])) start
  = (Ok unauthorized, start)
  /\ route env_open (summarize_article (world [] []) env_open) (post (obj []))
     = summarize_article (world [] []) env_open (post (obj [])).
Proof.
  split.
  - apply (proj1 (gate_unauthorized_or_open env_secret _ _ start) "s3cret").
    + reflexivity.
    + discriminate.
    + right. exists "wrong". split; [reflexivity | discriminate].
  - apply (proj2 (gate_unauthorized_or_open env_open _ _ start)).
    left. reflexivity.
Defined.

Lemma gate_reads_second_space_piece_witness :
  authenticateToken env_secret (post_auth "Basic s3cret" (obj [])) = Next
  /\ authenticateToken env_secret (post_auth "s3cret" (obj [])) = Respond unauthorized.
Proof.
  split.
  - apply (proj1 (gate_reads_second_space_piece env_secret
                    (post_auth "Basic s3cret" (obj [])) "s3cret" "Basic s3cret"
                    eq_refl ltac:(discriminate) eq_refl)).
    reflexivity.
  - apply (proj2 (gate_reads_second_space_piece env_secret
                    (post_auth "s3cret" (obj [])) "s3cret" "s3cret"
                    eq_refl ltac:(discriminate) eq_refl)).
    reflexivity.
Defined.

(** C9, as first worded, fails.  In the header made of the word Bearer,
    a tab and the secret, the second token separated by white space is
    the secret, yet the gate, which cuts at space characters only, finds
    no second piece and answers 401. *)
Lemma gate_rejects_tab_separated_secret :
  Wording.ws_tokens ("Bearer" +:+ tab +:+ "s3cret") !! 1 = Some "s3cret"
  /\ authenticateToken env_secret (post_auth ("Bearer" +:+ tab +:+ "s3cret") (obj []))
     = Respond unauthorized
  /\ authenticateToken env_secret (post_auth ("Bearer" +:+ tab +:+ "s3cret") (obj []))
     <> Next.
Proof. split; [reflexivity | split; [reflexivity | discriminate]]. Qed.

(** The same happens when two spaces separate the scheme from the
    secret: the second piece is then the empty string. *)
Example gate_rejects_double_space :
  Wording.ws_tokens "Bearer  s3cret" !! 1 = Some "s3cret"
  /\ Str.split_space "Bearer  s3cret" !! 1 = Some ""
  /\ authenticateToken env_secret (post_auth "Bearer  s3cret" (obj [])) = Respond unauthorized.
Proof. repeat split; reflexivity. Qed.

End GateExamples.

(** ** Input validation *)

Section Validation.

Variable w : World.
Variable env : gmap string string.

(** C6.  When the [text] field of the body is missing or the empty
    string, the summarizer answers 400 with [{error: text is required}].
    The state of the run is unchanged, so no request went out, and the
    answer is the same for every environment, with or without a provider
    credential.  Both copies of the server behave so. *)
Theorem summarize_requires_text (req : Request) (st : St) :
  get_prop (body req) "text" = Ok JUndefined
  \/ get_prop (body req) "text" = Ok (JStr "") ->
  summarize_article w env req st = (Ok text_is_required, st)
  /\ McpTools.summarize_article w env req st = (Ok text_is_required, st).
Proof.
  intros [H | H]; split;
    unfold summarize_article, McpTools.summarize_article;
    run_unfold; rewrite H; reflexivity.
Qed.

(** C7.  When [loras] is missing or the empty array, the LoRA route
    answers 400 and leaves the state of the run unchanged (no request
    went out); with a non-empty prompt the body is
    [{error: loras array is required}].  Both copies of the server
    behave so. *)
Theorem lora_requires_loras (req : Request) (st : St) :
  destructurable (body req) = true ->
  get_prop_opt (body req) "loras" = JUndefined
  \/ get_prop_opt (body req) "loras" = JArr [] ->
  exists resp : Response,
    fal_flux_lora_generate w env req st = (Ok resp, st)
    /\ McpTools.fal_flux_lora_generate w env req st = (Ok resp, st)
    /\ status resp = 400
    /\ (truthy (get_prop_opt (body req) "prompt") = true ->
        resp = loras_array_is_required).
Proof.
  intros Hb Hl.
  pose proof (destructure_ok (body req) "prompt" Hb) as Hp.
  destruct (truthy (get_prop_opt (body req) "prompt")) eqn:Ht.
  - exists loras_array_is_required.
    repeat split;
      unfold fal_flux_lora_generate, McpTools.fal_flux_lora_generate;
      run_unfold; rewrite Hp, Ht; destruct Hl as [-> | ->]; reflexivity.
  - exists (status_json 400 (obj [("error", JStr "prompt is required")])).
    repeat split; try discriminate;
      unfold fal_flux_lora_generate, McpTools.fal_flux_lora_generate;
      run_unfold; rewrite Hp, Ht; reflexivity.
Qed.

End Validation.

Section ValidationExamples.
Import Stub.

Lemma summarize_requires_text_witness :
  summarize_article (world [] []) ∅ (post (obj [("text", JStr "")])) start
  = (Ok text_is_required, start).
Proof.
  apply (proj1 (summarize_requires_text (world [] []) ∅
                  (post (obj [("text", JStr "")])) start (or_intror eq_refl))).
Defined.

Lemma lora_requires_loras_witness :
  exists resp : Response,
    fal_flux_lora_generate (world [] []) env_open
      (post (obj [("prompt", JStr "x"); ("loras", JArr [])])) start = (Ok resp, start)
    /\ status resp = 400.
Proof.
  destruct (lora_requires_loras (world [] []) env_open
              (post (obj [("prompt", JStr "x"); ("loras", JArr [])])) start
              eq_refl (or_intror eq_refl)) as (resp & H1 & _ & H2 & _).
  exists resp. split; assumption.
Defined.

(** A body without the field, and one where [loras] is absent. *)
Example summarize_missing_text :
  summarize_article (world [] []) ∅ (post (obj [])) start = (Ok text_is_required, start).
Proof. reflexivity. Qed.

Example lora_missing_loras :
  fal_flux_lora_generate (world [] []) env_open (post (obj [("prompt", JStr "x")])) start
  = (Ok loras_array_is_required, start).
Proof. reflexivity. Qed.

End ValidationExamples.

(** ** The summarizer's check of the provider reply *)

Section Summarizer.

Variable w : World.
Variable env : gmap string string.

Lemma all_present_iff_none_absent (v : JS) :
  forallb (has v) requiredKeys = negb (0 <? length (absent_keys v)).
Proof.
  unfold absent_keys, requiredKeys. cbn [forallb List.filter].
  repeat (destruct (has v _); cbn); reflexivity.
Qed.

(** C3, as amended.  When the provider reply parses to a JSON object or
    array, the summarizer accepts it exactly when the four required keys
    are all present, whatever further keys it has, and then answers 200
    with the parsed value itself; when a required key is absent it
    answers 500 with a message that lists the absent keys, each of them
    and in the order of the required list. *)
Theorem summarize_accepts_when_required_keys_present
    (req : Request) (text : JS) (response : FetchResponse) (data : JS)
    (c : string) (v : JS) :
  get_prop (body req) "text" = Ok text -> truthy text = true ->
  env_set env "OPENAI_API_KEY" = true ->
  net w 0 = inr response -> reply_json response data ->
  first_choice_content data (JStr c) -> c <> "" ->
  JSON_parse w (unfence (Str.trim c)) = Some v ->
  is_container v = true ->
  exists st',
    summarize_article w env req start
    = (Ok (if forallb (has v) requiredKeys then json v else invalid_format v), st')
    /\ (forallb (has v) requiredKeys = false -> absent_keys v <> [])
    /\ (forall k, k ∈ requiredKeys -> has v k = false -> k ∈ absent_keys v).
Proof.
  intros Ht Htt Hk Hn [Hok Hj] (choices & first & Hc & Hf & Hcont) Hne Hp Hv.
  eexists. split; [| split].
  - unfold summarize_article. rewrite Ht. step. rewrite Htt, Hk. cbn [negb].
    unfold try_catch at 1, bind at 1.
    rewrite (fetch_reply w _ response) by exact Hn. cbv beta iota.
    rewrite Hok. cbn [negb]. rewrite Hj. step. rewrite Hc. step. rewrite Hf. step.
    rewrite Hcont. cbn [truthy]. destruct (String.eqb_spec c ""); [contradiction |].
    cbn [negb].
    cbv beta iota zeta delta [trim_of try_catch bind ret lift parse throw].
    rewrite Hp. cbv beta iota. rewrite (missing_container v _ Hv). cbv beta iota.
    fold (absent_keys v). rewrite all_present_iff_none_absent.
    destruct (0 <? length (absent_keys v)); reflexivity.
  - rewrite all_present_iff_none_absent.
    destruct (absent_keys v); [discriminate | done].
  - intros k Hin Hk'. unfold absent_keys. apply list_elem_of_In, filter_In.
    split; [by apply list_elem_of_In | by rewrite Hk'].
Qed.

End Summarizer.

Section SummarizerExamples.
Import Stub.

Lemma summarize_accepts_when_required_keys_present_witness :
  exists st',
    summarize_article (world [chat_reply (JStr no_action_text)] [(no_action_text, no_action)])
      env_open (post (obj [("text", JStr "news")])) start
    = (Ok (invalid_format no_action), st').
Proof.
  destruct (summarize_accepts_when_required_keys_present
              (world [chat_reply (JStr no_action_text)] [(no_action_text, no_action)])
              env_open (post (obj [("text", JStr "news")])) (JStr "news")
              (chat_reply (JStr no_action_text))
              (obj [("choices", JArr [obj [("message", obj [("role", JStr "assistant");
                                                            ("content", JStr no_action_text)])]])])
              no_action_text no_action)
    as (st' & H & _).
  - reflexivity.
  - reflexivity.
  - reflexivity.
  - reflexivity.
  - split; reflexivity.
  - eexists _, _. repeat split; reflexivity.
  - discriminate.
  - reflexivity.
  - reflexivity.
  - exists st'. exact H.
Defined.

(** C3, as first worded, fails.  A reply with the four required keys and
    a fifth one does not have exactly the four keys, yet the summarizer
    answers 200 with the whole of it. *)
Lemma summarize_accepts_extra_keys :
  Wording.exactly_four_keys five_keys = false
  /\ (summarize_article (world [chat_reply (JStr five_keys_text)] [(five_keys_text, five_keys)])
        env_open (post (obj [("text", JStr "news")])) start).1
     = Ok (json five_keys).
Proof. split; vm_compute; reflexivity. Qed.

(** The reply of the description's own test: valid JSON without the
    key [action]. *)
Example summarize_names_missing_action :
  (summarize_article (world [chat_reply (JStr no_action_text)] [(no_action_text, no_action)])
     env_open (post (obj [("text", JStr "news")])) start).1
  = Ok (status_json 500
          (obj [("error", JStr "Invalid response format. Missing keys: action");
                ("received", no_action)])).
Proof. vm_compute. reflexivity. Qed.

(** A reply that parses to a number: the [in] test throws and the inner
    handler reports a parse failure. *)
Example summarize_number_reply :
  (summarize_article (world [chat_reply (JStr "5")] [("5", num 5)])
     env_open (post (obj [("text", JStr "news")])) start).1
  = Ok (status_json 500
          (obj [("error", JStr "Failed to parse OpenAI response as JSON");
                ("raw_content", JStr "5")])).
Proof. vm_compute. reflexivity. Qed.

End SummarizerExamples.

(** ** The image routes *)

Section Images.

Variable w : World.
Variable env : gmap string string.

Lemma save_total (data : JS) (fname : string) (st : St) :
  exists (r : SaveResult) (st' : St),
    saveImageToFolder w data fname st = (Ok r, st')
    /\ (r = saved_as (path_join w (path_join w (cwd w) "ai_generated_images") fname) fname
        \/ exists e : Exn, r = save_failed (message w e)).
Proof.
  unfold saveImageToFolder, mkdir, write. run_unfold.
  destruct (existsSync w (path_join w (cwd w) "ai_generated_images")); simpl;
    repeat match goal with
           | |- context [match mkdirSync w ?d with _ => _ end] =>
               destruct (mkdirSync w d); simpl
           | |- context [match writeFileSync w ?f ?d with _ => _ end] =>
               destruct (writeFileSync w f d); simpl
           | |- context [match data with _ => _ end] => destruct data; simpl
           end;
    eexists _, _; (split; [reflexivity |]);
    first [ left; reflexivity
          | right; eexists (Error _); reflexivity
          | right; eexists (TypeError _); reflexivity ].
Qed.

Lemma extends_save (data : JS) (fname : string) :
  extends (saveImageToFolder w data fname).
Proof. unfold saveImageToFolder, mkdir, write. extends_tac. Qed.

Lemma extends_fal_finish (prefix : string) (response : FetchResponse) :
  extends (fal_finish w prefix response).
Proof. unfold fal_finish. extends_tac; apply extends_save. Qed.

Lemma fal_finish_save_fails (prefix : string) (response : FetchResponse) (u : JS)
      (m : string) (st st' : St) :
  reply_has_image response u ->
  saveImageToFolder w u (filename_for w prefix) st = (Ok (save_failed m), st') ->
  m <> "" ->
  fal_finish w prefix response st = (Ok (degraded u m), st').
Proof.
  intros (Hok & data & images & image & Hj & Hi & Hti & Hf & Htf & Hu & Htu) Hs Hm.
  unfold fal_finish. run_unfold. rewrite Hok, Hj. simpl. rewrite Hi, Hti. simpl.
  rewrite Hf, Htf. simpl. rewrite Hu, Htu. simpl.
  unfold filename_for in Hs. rewrite Hs. simpl.
  unfold js_or. simpl. destruct (String.eqb_spec m ""); [contradiction | reflexivity].
Qed.


(** C4.  [saveImageToFolder] never throws: from every state it returns
    either the success record with path and file name or the failure
    record with the message of the error it caught.  When the provider
    call of an image route succeeded and persisting the image fails with
    a (non-empty) message, the route still answers 200 with the image
    url, [saved_to_file] null and [save_error] that message. *)
Theorem persistence_failure_is_not_fatal :
  (forall (data : JS) (fname : string) (st : St),
      exists (r : SaveResult) (st' : St),
        saveImageToFolder w data fname st = (Ok r, st')
        /\ (r = saved_as (path_join w (path_join w (cwd w) "ai_generated_images") fname) fname
            \/ exists e : Exn, r = save_failed (message w e)))
  /\ (forall (req : Request) (response : FetchResponse) (u : JS) (m : string),
        destructurable (body req) = true ->
        truthy (get_prop_opt (body req) "prompt") = true ->
        env_set env "FAL_KEY" = true ->
        net w 0 = inr response ->
        reply_has_image response u ->
        m <> "" ->
        (persist_fails w u (filename_for w "generated_") m ->
         exists st', fal_generate w env req start = (Ok (degraded u m), st'))
        /\ (isArray (get_prop_opt (body req) "loras") = true ->
            length_is_zero (get_prop_opt (body req) "loras") = false ->
            persist_fails w u (filename_for w "lora_") m ->
            exists st', fal_flux_lora_generate w env req start = (Ok (degraded u m), st'))).
Proof.
  split; [apply save_total |].
  intros req response u m Hb Ht Hk Hn Hi Hm.
  pose proof (destructure_ok (body req) "prompt" Hb) as Hp.
  split.
  - intros Hs. edestruct Hs as [st' Hs'].
    exists st'. unfold fal_generate. rewrite Hp. step. cbv zeta.
    rewrite Ht, Hk. cbn [negb].
    unfold try_catch, bind. rewrite (fetch_reply w _ _ start Hn). cbv beta iota.
    erewrite (fal_finish_save_fails _ _ _ _ _ _ Hi Hs' Hm). reflexivity.
  - intros Ha Hz Hs. edestruct Hs as [st' Hs'].
    exists st'. unfold fal_flux_lora_generate. rewrite Hp. step. cbv zeta.
    assert (Hl : truthy (get_prop_opt (body req) "loras") = true).
    { by destruct (get_prop_opt (body req) "loras"). }
    rewrite Ht, Hk, Hl, Ha, Hz. cbn [negb orb].
    unfold try_catch, bind. rewrite (fetch_reply w _ _ start Hn). cbv beta iota.
    erewrite (fal_finish_save_fails _ _ _ _ _ _ Hi Hs' Hm). reflexivity.
Qed.

End Images.

Section ImagesExamples.
Import Stub.


Lemma disk_full_fails (replies : list FetchResponse) (u fname : string) :
  persist_fails (world_disk_full replies) (JStr u) fname
    "ENOSPC: no space left on device, write".
Proof. intros st. eexists. reflexivity. Qed.

Lemma persistence_failure_is_not_fatal_witness :
  exists st',
    fal_generate (world_disk_full [image_reply "https://x/y.jpg"]) env_open
      (post (obj [("prompt", JStr "x")])) start
    = (Ok (degraded (JStr "https://x/y.jpg") "ENOSPC: no space left on device, write"), st').
Proof.
  apply (proj2 (persistence_failure_is_not_fatal
                  (world_disk_full [image_reply "https://x/y.jpg"]) env_open)
           (post (obj [("prompt", JStr "x")])) (image_reply "https://x/y.jpg")
           (JStr "https://x/y.jpg") "ENOSPC: no space left on device, write").
  - reflexivity.
  - reflexivity.
  - reflexivity.
  - reflexivity.
  - split; [reflexivity |]. eexists _, _, _. repeat split; reflexivity.
  - discriminate.
  - apply disk_full_fails.
Defined.

(** Falsy values, run through both routes. *)
Example width_zero_is_forwarded :
  head (fetches (trace (fal_generate (world [] []) env_open
                          (post (obj [("prompt", JStr "x"); ("width", num 0);
                                      ("height", JNull); ("sync_mode", JBool false)]))
                          start).2))
  = Some (fal_request env_open "https://fal.run/fal-ai/flux"
            (fal_payload (JStr "x") (num 0) JNull (num 28) (JNum (Qmake 7 2)) (JBool false))).
Proof. vm_compute. reflexivity. Qed.

Example lora_sync_mode_false_is_forwarded :
  head (fetches (trace (fal_flux_lora_generate (world [] []) env_open
                          (post (obj [("prompt", JStr "x");
                                      ("loras", JArr [obj [("path", JStr "p")]]);
                                      ("steps", num 0); ("sync_mode", JBool false)]))
                          start).2))
  = Some (fal_request env_open "https://fal.run/fal-ai/flux-lora"
            (lora_payload (JStr "x") (JArr [obj [("path", JStr "p")]])
               (num 1080) (num 1350) (num 0) (JNum (Qmake 7 2)) (JBool false))).
Proof. vm_compute. reflexivity. Qed.

(** The image is stored when the disk takes it. *)
Example image_is_saved :
  (fal_generate (world [image_reply "data:image/jpeg;base64,AAAA"] []) env_open
     (post (obj [("prompt", JStr "x")])) start).1
  = Ok (json (obj [("image_url", JStr "data:image/jpeg;base64,AAAA");
                   ("saved_to_file", JStr "generated_2024-01-02T03-04-05-678Z.jpg");
                   ("save_error", JNull)])).
Proof. vm_compute. reflexivity. Qed.

End ImagesExamples.

(** ** The workflow *)

Section Workflow.

Variable w : World.
Variable env : gmap string string.

Lemma extract_ok (url : JS) (page : FetchResponse) (st : St) :
  net w (sent st) = inr page -> r_ok page = true ->
  extractContentFromURL w url st
  = (Ok (extracted url (r_text page)),
     {| trace := trace st ++ [EvFetch (article_request url)]; sent := S (sent st) |}).
Proof.
  intros Hn Hok. unfold extractContentFromURL, try_catch, bind.
  fold (article_request url). rewrite (fetch_reply w _ _ _ Hn). cbv beta iota.
  rewrite Hok. reflexivity.
Qed.

Lemma image_step_ok (sd idata : JS) (r : FetchResponse) (st : St) :
  destructurable sd = true -> destructurable idata = true ->
  net w (sent st) = inr r -> reply_json r idata ->
  exists st', image_step w env sd st = (Ok idata, st') /\ sent st' = S (sent st).
Proof.
  intros Hsd Hid Hn [Hok Hj]. unfold image_step.
  rewrite (destructure_ok sd "image_prompt" Hsd). step.
  unfold bind at 1. rewrite (fetch_reply w _ r) by exact Hn. cbv beta iota.
  rewrite Hok. cbn [negb]. rewrite Hj. step.
  rewrite (destructure_ok idata "saved_to_file" Hid). step.
  eexists. split; reflexivity.
Qed.

(** What the caption step returns for each shape of the provider's
    reply text. *)
Lemma caption_step_ok (sd cdata answer : JS) (r : FetchResponse) (st : St) :
  destructurable sd = true ->
  net w (sent st) = inr r -> reply_json r cdata ->
  first_choice_content cdata answer ->
  exists st',
    caption_step w env sd st
    = (match answer with
       | JUndefined | JNull => Ok (get_prop_opt sd "summary_one_liner")
       | JStr c => Ok (if String.eqb (Str.trim c) ""
                       then get_prop_opt sd "summary_one_liner"
                       else JStr (Str.trim c))
       | _ => Throw (TypeError "content.trim")
       end, st').
Proof.
  intros Hsd Hn [Hok Hj] (choices & first & Hc & Hf & Hcont). unfold caption_step.
  rewrite (destructure_ok sd "summary_one_liner" Hsd). step.
  unfold bind at 1. rewrite (fetch_reply w _ r) by exact Hn. cbv beta iota.
  rewrite Hok. cbn [negb]. rewrite Hj. step. rewrite Hc. step. rewrite Hf. step.
  rewrite Hcont. eexists.
  destruct answer; try reflexivity.
  unfold trim_opt, bind, ret, js_or. cbn [truthy].
  destruct (String.eqb (Str.trim s) ""); reflexivity.
Qed.



(** Every handler answers: no error crosses its boundary. *)
Lemma handlers_always_answer (req : Request) (st : St) :
  (exists r st', summarize_article w env req st = (Ok r, st'))
  /\ (exists r st', fal_generate w env req st = (Ok r, st'))
  /\ (exists r st', fal_flux_lora_generate w env req st = (Ok r, st'))
  /\ (exists r st', process_news_url w env req st = (Ok r, st'))
  /\ (exists r st', McpTools.summarize_article w env req st = (Ok r, st'))
  /\ (exists r st', McpTools.fal_flux_lora_generate w env req st = (Ok r, st')).
Proof. repeat split; apply try_catch_total. Qed.

End Workflow.

Section WorkflowExamples.
Import Stub.



(** The fallback: an empty reply, a reply of white space only, and a
    reply without text all yield the one-line summary. *)
Example caption_falls_back :
  forall answer, In answer [JStr ""; JStr "   "; JNull; JUndefined] ->
    (process_news_url (world (full_replies answer) []) env_open
       (post (obj [("url", article)])) start).1
    = Ok (workflow_success article "News" (summary_of "PROCEED") image_data
            (JStr "S") "2024-01-02T03:04:05.678Z").
Proof.
  intros answer [<- | [<- | [<- | [<- | []]]]]; vm_compute; reflexivity.
Qed.

(** A reply text that is not a string has no [trim]: the workflow
    fails. *)
Example caption_number_fails :
  (process_news_url (world (full_replies (num 7)) []) env_open
     (post (obj [("url", article)])) start).1
  = Ok (status_json 500 (obj [("error", JStr "content.trim is not a function");
                              ("status", JStr "failed")])).
Proof. vm_compute. reflexivity. Qed.

End WorkflowExamples.

(** ** The patterns *)

Section Patterns.
Import Str Re.

(** The scan of [gsub] resumes right after a match: the counter passes
    over exactly the characters the match covers. *)
Lemma gsub_skip (m : list ascii -> option (list ascii)) (repl pre rest : list ascii) :
  gsub m repl (length pre) (pre ++ rest) = gsub m repl 0 rest.
Proof. induction pre as [| c pre IH]; [by destruct rest | exact IH]. Qed.

Lemma gsub_at_match (m : list ascii -> option (list ascii)) (repl : list ascii)
      (c : ascii) (pre rest : list ascii) :
  m (c :: pre ++ rest) = Some rest ->
  gsub m repl 0 (c :: pre ++ rest) = repl ++ gsub m repl 0 rest.
Proof.
  intros H. cbn [gsub]. rewrite H. f_equal.
  replace (length (pre ++ rest) - length rest) with (length pre)
    by (rewrite length_app; lia).
  apply gsub_skip.
Qed.

Lemma gsub_no_match (m : list ascii -> option (list ascii)) (repl : list ascii)
      (c : ascii) (s : list ascii) :
  m (c :: s) = None ->
  gsub m repl 0 (c :: s) = c :: gsub m repl 0 s.
Proof. intros H. cbn [gsub]. by rewrite H. Qed.

Lemma lit_ci_suffix (p s r : list ascii) : lit_ci p s = Some r -> r `suffix_of` s.
Proof.
  revert s. induction p as [| a p IH]; intros s H; simpl in H.
  - by injection H as ->.
  - destruct s as [| b s]; [discriminate |].
    destruct (Ascii.eqb _ _); [| discriminate].
    by apply suffix_cons_r, IH.
Qed.

Lemma to_gt_suffix (s r : list ascii) : to_gt s = Some r -> r `suffix_of` s.
Proof.
  induction s as [| c s IH]; simpl; [discriminate |].
  destruct (Ascii.eqb c ">"); intros H.
  - injection H as ->. by apply suffix_cons_r.
  - by apply suffix_cons_r, IH.
Qed.

Lemma one_line_suffix (r s : list ascii) : r `suffix_of` s -> one_line s -> one_line r.
Proof. intros [k ->] H. by apply Forall_app in H as [_ H]. Qed.

Lemma lazy_until_one_line (close s : list ascii) :
  one_line s -> snd <$> lazy_until close s = Wording.until_close close s.
Proof.
  induction s as [| c s IH]; intros H; simpl.
  - by destruct (lit_ci close []).
  - destruct (lit_ci close (c :: s)); [done |].
    inversion H as [| ? ? Hc Hs]; subst. rewrite Hc, <- (IH Hs).
    by destruct (lazy_until close s) as [[run rest] |].
Qed.

Lemma element_end_one_line (name : string) (s : list ascii) :
  one_line s -> element_end name s = Wording.block_end name s.
Proof.
  intros H. unfold element_end, element, Wording.block_end.
  destruct (lit_ci _ s) as [s1 |] eqn:H1; [| done].
  destruct (to_gt s1) as [s2 |] eqn:H2; [| done].
  apply lazy_until_one_line.
  eapply one_line_suffix; [| exact H].
  etrans; [by apply to_gt_suffix | by eapply lit_ci_suffix].
Qed.

Lemma gsub_ext (m1 m2 : list ascii -> option (list ascii)) (repl : list ascii)
      (k : nat) (s : list ascii) :
  (forall t, t `suffix_of` s -> m1 t = m2 t) ->
  gsub m1 repl k s = gsub m2 repl k s.
Proof.
  revert k. induction s as [| c s IH]; intros k H; [reflexivity |].
  assert (Hs : forall j, gsub m1 repl j s = gsub m2 repl j s).
  { intros j. apply IH. intros t Ht. apply H. by apply suffix_cons_r. }
  simpl. destruct k; [| apply Hs].
  rewrite (H (c :: s)) by done.
  destruct (m2 (c :: s)); by rewrite Hs.
Qed.

Lemma gsub_delete_sublist (m : list ascii -> option (list ascii)) (k : nat) (s : list ascii) :
  gsub m [] k s `sublist_of` s.
Proof.
  revert k. induction s as [| c s IH]; intros k; [done |].
  simpl. destruct k; [| by apply sublist_cons].
  destruct (m (c :: s)); simpl; [by apply sublist_cons | by apply sublist_skip].
Qed.

Lemma chars_of_chars (l : list ascii) : chars (of_chars l) = l.
Proof. apply list_ascii_of_string_of_list_ascii. Qed.

Lemma replace_all_ext (m1 m2 : list ascii -> option (list ascii)) (repl s : string) :
  (forall t, t `suffix_of` chars s -> m1 t = m2 t) ->
  replace_all m1 repl s = replace_all m2 repl s.
Proof. intros H. unfold replace_all. by rewrite (gsub_ext m1 m2 _ _ _ H). Qed.

(** On a document without line terminators the extractor does what its
    description says: the two texts coincide. *)
Theorem textContent_one_line (html : string) :
  one_line (chars html) -> textContent html = Wording.textContent html.
Proof.
  intros H. unfold textContent, Wording.textContent.
  assert (H1 : replace_all (element_end "script") "" html
               = replace_all (Wording.block_end "script") "" html).
  { apply replace_all_ext. intros t Ht.
    apply element_end_one_line. by eapply one_line_suffix. }
  rewrite <- H1.
  assert (H2 : one_line (chars (replace_all (element_end "script") "" html))).
  { unfold replace_all. rewrite chars_of_chars.
    apply Forall_forall. intros x Hx.
    apply (proj1 (Forall_forall _ _) H x).
    eapply elem_of_sublist; [exact Hx | apply gsub_delete_sublist]. }
  do 3 f_equal. apply replace_all_ext. intros t Ht.
  apply element_end_one_line. by eapply one_line_suffix.
Qed.
End Patterns.

(** ** The content extractor *)

Section Extractor.
Import Stub.

(** C5 does not hold of the code.  The pattern that removes script and
    style blocks stops at a line terminator, so a block that spans
    several lines is not removed: only its tags are, and the script text
    stays in the extracted content.  The same page with the script on
    one line is extracted as described. *)
Theorem extraction_keeps_multiline_script :
  (extractContentFromURL (world [reply 200 page_multi_line JNull] []) article start).1
  = Ok {| title := "News"; content := "News var x = 1; Hello"; url := article |}
  /\ Wording.textContent page_multi_line = "News Hello"
  /\ (extractContentFromURL (world [reply 200 page_one_line JNull] []) article start).1
     = Ok {| title := "News"; content := "News Hello"; url := article |}.
Proof. repeat split; vm_compute; reflexivity. Qed.

(** The content is cut at 5000 characters. *)
Lemma content_bounded (url : JS) (html : string) :
  String.length (content (extracted url html)) <= 5000.
Proof.
  unfold extracted, content, Str.substring0.
  rewrite length_of_chars, length_take. lia.
Qed.

End Extractor.

(** * Further properties *)

(** ** White space *)

Section Spacing.
Import Str Re.

Lemma drop_spaces_split (l : list ascii) :
  exists pre, l = pre ++ drop_spaces l.
Proof.
  induction l as [| c l [pre IH]]; [by exists [] |]. simpl.
  destruct (is_space c); [| by exists []].
  exists (c :: pre). simpl. by rewrite <- IH.
Qed.

Lemma drop_spaces_head (l : list ascii) : no_leading_space (drop_spaces l).
Proof.
  induction l as [| c l IH]; [by intros ? ? ? |]. simpl.
  destruct (is_space c) eqn:E; [exact IH |]. intros ? ? [= <- <-]. exact E.
Qed.

(** [trim] cuts a prefix and a suffix off. *)
Lemma trim_chars_infix (l : list ascii) :
  exists pre post, l = pre ++ trim_chars l ++ post.
Proof.
  unfold trim_chars.
  destruct (drop_spaces_split l) as [pre Hpre].
  destruct (drop_spaces_split (rev (drop_spaces l))) as [post Hpost].
  exists pre, (rev post).
  rewrite <- rev_app_distr, <- Hpost, rev_involutive. exact Hpre.
Qed.

Lemma trim_chars_trimmed (l : list ascii) :
  no_leading_space (trim_chars l) /\ no_trailing_space (trim_chars l).
Proof.
  unfold trim_chars. split.
  - pose proof (drop_spaces_head l) as Hh.
    destruct (drop_spaces_split (rev (drop_spaces l))) as [post Hpost].
    assert (Hd : drop_spaces l = rev (drop_spaces (rev (drop_spaces l))) ++ rev post).
    { rewrite <- rev_app_distr, <- Hpost. by rewrite rev_involutive. }
    intros c l' E. rewrite E in Hd. simpl in Hd. by apply (Hh c _ Hd).
  - intros c l' E.
    apply (f_equal (@rev ascii)) in E. rewrite rev_involutive, rev_app_distr in E.
    simpl in E. by apply (drop_spaces_head _ c _ E).
Qed.

Lemma spaces_match (c : ascii) (s : list ascii) :
  is_space c = true -> exists pre, s = pre ++ drop_spaces s
                                   /\ spaces (c :: pre ++ drop_spaces s) = Some (drop_spaces s).
Proof.
  intros Hc. destruct (drop_spaces_split s) as [pre Hpre]. exists pre. split; [done |].
  simpl. rewrite Hc. by rewrite <- Hpre.
Qed.

Lemma collapse_in_run (l : list ascii) : collapse true l = collapse false (drop_spaces l).
Proof.
  induction l as [| c l IH]; [done |]. simpl.
  destruct (is_space c) eqn:E; [exact IH |]. simpl. by rewrite E.
Qed.

Lemma length_drop_spaces (l : list ascii) : length (drop_spaces l) <= length l.
Proof. destruct (drop_spaces_split l) as [pre H]. rewrite H at 2. rewrite length_app. lia. Qed.

(** The scan of the pattern for white-space runs is the collapse. *)
Lemma gsub_spaces_collapse (s : list ascii) :
  gsub spaces [" "%char] 0 s = collapse false s.
Proof.
  remember (length s) as n eqn:Hn. revert s Hn.
  induction n as [n IH] using lt_wf_ind. intros [| c s] Hn; [done |].
  simpl in Hn. destruct (is_space c) eqn:E.
  - destruct (spaces_match c s E) as (pre & Hs & Hm).
    rewrite Hs at 1. rewrite (gsub_at_match _ _ _ _ _ Hm).
    cbn [collapse]. rewrite E. cbn [app]. f_equal.
    rewrite collapse_in_run. apply (IH (length (drop_spaces s))); [| done].
    pose proof (length_drop_spaces s). lia.
  - rewrite gsub_no_match by (simpl; by rewrite E).
    cbn [collapse]. rewrite E. f_equal. apply (IH (length s)); [lia | done].
Qed.

Lemma collapse_elem (b : bool) (l : list ascii) (c : ascii) :
  c ∈ collapse b l -> c = " "%char \/ (c ∈ l /\ is_space c = false).
Proof.
  revert b. induction l as [| d l IH]; intros b; simpl; [by intros ?%elem_of_nil |].
  destruct (is_space d) eqn:E.
  - destruct b.
    + intros H. destruct (IH _ H) as [? | [? ?]]; [by left | right; split; [by right | done]].
    + intros [-> | H]%elem_of_cons; [by left |].
      destruct (IH _ H) as [? | [? ?]]; [by left | right; split; [by right | done]].
  - intros [-> | H]%elem_of_cons; [right; split; [by left | done] |].
    destruct (IH _ H) as [? | [? ?]]; [by left | right; split; [by right | done]].
Qed.

Lemma collapse_no_double (b : bool) (l : list ascii) :
  no_double_space (collapse b l)
  /\ (b = true -> forall l', collapse b l <> " "%char :: l').
Proof.
  revert b. induction l as [| c l IH]; intros b; simpl; [done |].
  destruct (is_space c) eqn:E.
  - destruct (IH true) as [Hn Hh]. destruct b; [done |].
    split; [| done]. destruct (collapse true l) as [| d r] eqn:Ec; [done |].
    split; [| done]. intros [_ ->]. by apply (Hh eq_refl r).
  - destruct (IH false) as [Hn _]. split.
    + destruct (collapse false l) as [| d r]; [done |]. split; [| done].
      intros [-> _]. done.
    + intros _ l' [= -> _]. done.
Qed.

Lemma collapse_single_spaced (l : list ascii) : single_spaced (collapse false l).
Proof.
  split; [| apply collapse_no_double].
  intros c Hc Hs. destruct (collapse_elem _ _ _ Hc) as [? | [_ ?]]; [done | congruence].
Qed.

Lemma no_double_space_app_r (l1 l2 : list ascii) :
  no_double_space (l1 ++ l2) -> no_double_space l2.
Proof.
  induction l1 as [| c l1 IH]; [done |]. simpl.
  destruct (l1 ++ l2) eqn:E; [by destruct l1, l2 | ]. intros [_ H]. by apply IH.
Qed.

Lemma no_double_space_app_l (l1 l2 : list ascii) :
  no_double_space (l1 ++ l2) -> no_double_space l1.
Proof.
  induction l1 as [| c l1 IH]; [done |]. simpl.
  destruct l1 as [| d l1]; [done |]. simpl. intros [H1 H2]. split; [done |]. by apply IH.
Qed.

Lemma single_spaced_infix (pre l post : list ascii) :
  single_spaced (pre ++ l ++ post) -> single_spaced l.
Proof.
  intros [Ha Hb]. split.
  - intros c Hc. apply Ha. rewrite !elem_of_app. auto.
  - by apply no_double_space_app_r, no_double_space_app_l in Hb.
Qed.

Lemma text_shape (html : string) :
  let t := chars (textContent html) in
  single_spaced t /\ no_leading_space t /\ no_trailing_space t.
Proof.
  cbn zeta. unfold textContent, trim. rewrite chars_of_chars.
  unfold replace_all at 1. rewrite chars_of_chars.
  change (chars " ") with [" "%char]. rewrite gsub_spaces_collapse.
  generalize (chars (replace_all tag " "
                       (replace_all (element_end "style") ""
                          (replace_all (element_end "script") "" html)))).
  intros u.
  destruct (trim_chars_infix (collapse false u)) as (pre & post & Hi).
  split; [| apply trim_chars_trimmed].
  apply (single_spaced_infix pre _ post). rewrite <- Hi. apply collapse_single_spaced.
Qed.
End Spacing.

(** ** Splitting at spaces *)

Section Splitting.
Import Str.

Lemma chars_append (a b : string) : chars (a +:+ b) = chars a ++ chars b.
Proof. induction a as [| c a IH]; simpl; [reflexivity | by rewrite <- IH]. Qed.

Lemma of_chars_chars (s : string) : of_chars (chars s) = s.
Proof. apply string_of_list_ascii_of_string. Qed.

Lemma elem_of_rev {A} (x : A) (l : list A) : x ∈ rev l <-> x ∈ l.
Proof. rewrite !list_elem_of_In. symmetry. apply in_rev. Qed.

Lemma split_space_aux_spaceless (cur l : list ascii) (p : string) :
  spaceless cur -> p ∈ split_space_aux cur l -> spaceless (chars p).
Proof.
  revert cur. induction l as [| c l IH]; intros cur Hc; simpl.
  - intros ->%list_elem_of_singleton. rewrite chars_of_chars.
    unfold spaceless. by rewrite elem_of_rev.
  - destruct (Ascii.eqb_spec c " ").
    + intros [-> | H]%elem_of_cons.
      * rewrite chars_of_chars. unfold spaceless. by rewrite elem_of_rev.
      * apply (IH [] ); [apply not_elem_of_nil | done].
    + apply IH. unfold spaceless. rewrite elem_of_cons. intros [? | ?]; [congruence | done].
Qed.

Lemma split_space_spaceless (h p : string) :
  p ∈ split_space h -> spaceless (chars p).
Proof. apply split_space_aux_spaceless, not_elem_of_nil. Qed.

Lemma split_space_aux_run (cur a : list ascii) :
  spaceless a -> split_space_aux cur a = [of_chars (rev cur ++ a)].
Proof.
  revert cur. induction a as [| c a IH]; intros cur Ha; simpl.
  - by rewrite app_nil_r.
  - apply not_elem_of_cons in Ha as [Hc Ha].
    destruct (Ascii.eqb_spec c " "); [congruence |].
    rewrite (IH _ Ha). simpl. by rewrite <- app_assoc.
Qed.

Lemma split_space_aux_cut (cur a rest : list ascii) :
  spaceless a ->
  split_space_aux cur (a ++ " "%char :: rest)
  = of_chars (rev cur ++ a) :: split_space_aux [] rest.
Proof.
  revert cur. induction a as [| c a IH]; intros cur Ha; simpl.
  - by rewrite app_nil_r.
  - apply not_elem_of_cons in Ha as [Hc Ha].
    destruct (Ascii.eqb_spec c " "); [congruence |].
    rewrite (IH _ Ha). simpl. by rewrite <- app_assoc.
Qed.

(** [(a + ' ' + rest).split(' ')] is [a] followed by the pieces of [rest]. *)
Lemma split_space_cut (a rest : string) :
  spaceless (chars a) -> split_space (a +:+ " " +:+ rest) = a :: split_space rest.
Proof.
  intros Ha. unfold split_space. rewrite !chars_append. simpl.
  rewrite (split_space_aux_cut [] _ _ Ha). simpl. by rewrite of_chars_chars.
Qed.

Lemma split_space_one (a : string) :
  spaceless (chars a) -> split_space a = [a].
Proof.
  intros Ha. unfold split_space. rewrite (split_space_aux_run [] _ Ha). simpl.
  by rewrite of_chars_chars.
Qed.
End Splitting.

(** ** The gate, header by header *)

Section GateHeaders.
Import Str.
Variable env : gmap string string.

Lemma bearer_token_header (h : string) :
  h <> "" -> bearer_token (Some h) = split_space h !! 1.
Proof. intros H. unfold bearer_token. by destruct (String.eqb_spec h ""). Qed.

(** X1.  With a secret configured, a request that carries an
    Authorization header passes the gate exactly when the second piece
    of the header, cut at single spaces, is the secret. *)
Theorem gate_passes_exactly_on_second_piece (req : Request) (secret h : string) :
  env !! "BE_TOKEN" = Some secret -> secret <> "" ->
  headers req !! "authorization" = Some h ->
  authenticateToken env req = Next <-> split_space h !! 1 = Some secret.
Proof.
  intros Hs Hne Hh. split.
  - intros Hn. destruct (decide (bearer_token (headers req !! "authorization") = Some secret)) as [Hb | Hb].
    + rewrite Hh in Hb. unfold bearer_token in Hb.
      destruct (String.eqb_spec h ""); [congruence | done].
    + rewrite (gate_rejects env req secret Hs Hne Hb) in Hn. discriminate.
  - intros Hp. apply (gate_accepts env req secret Hs Hne). rewrite Hh.
    unfold bearer_token. destruct (String.eqb_spec h ""); [subst; discriminate | done].
Qed.

(** X2.  A secret that contains a space can never be presented: a piece
    cut at spaces holds none, so every request is answered 401, the one
    with the right secret included. *)
Theorem secret_with_space_locks_out (req : Request) (secret : string) :
  env !! "BE_TOKEN" = Some secret -> " "%char ∈ chars secret ->
  authenticateToken env req = Respond unauthorized
  /\ McpTools.authenticateToken env req = Respond unauthorized.
Proof.
  intros Hs Hsp.
  assert (Hne : secret <> "") by (intros ->; by apply elem_of_nil in Hsp).
  change (McpTools.authenticateToken env req) with (authenticateToken env req).
  split; apply (gate_rejects env req secret Hs Hne); unfold bearer_token;
    (destruct (headers req !! "authorization") as [h |]; [| done];
     destruct (String.eqb_spec h ""); [congruence |];
     intros Hp; apply list_elem_of_lookup_2 in Hp;
     by apply split_space_spaceless in Hp).
Qed.

(** X3.  A header made of any scheme word, a space and the secret
    passes, and so does one that goes on after a further space: what
    follows the secret is not read. *)
Theorem scheme_and_secret_pass (req : Request) (secret scheme more : string) :
  env !! "BE_TOKEN" = Some secret -> secret <> "" ->
  spaceless (chars scheme) -> spaceless (chars secret) ->
  headers req !! "authorization" = Some (scheme +:+ " " +:+ secret)
  \/ headers req !! "authorization" = Some (scheme +:+ " " +:+ secret +:+ " " +:+ more) ->
  authenticateToken env req = Next /\ McpTools.authenticateToken env req = Next.
Proof.
  intros Hs Hne Hsc Hse Hh.
  change (McpTools.authenticateToken env req) with (authenticateToken env req).
  assert (authenticateToken env req = Next); [| done].
  apply (gate_accepts env req secret Hs Hne).
  destruct Hh as [-> | ->]; rewrite bearer_token_header.
  - rewrite (split_space_cut _ _ Hsc), (split_space_one _ Hse). done.
  - by destruct scheme.
  - rewrite (split_space_cut _ _ Hsc), (split_space_cut _ _ Hse). done.
  - by destruct scheme.
Qed.

(** X4.  The workflow's calls to its own routes pass its own gate: a
    request whose Authorization header is the one [self_headers]
    attaches (none when no secret is set) is let through, provided the
    secret holds no space. *)
Theorem loopback_passes_gate (req : Request) :
  (forall secret, env !! "BE_TOKEN" = Some secret -> spaceless (chars secret)) ->
  headers req !! "authorization"
  = (list_to_map (self_headers env) : gmap string string) !! "Authorization" ->
  authenticateToken env req = Next.
Proof.
  intros Hsp Hh. destruct (env !! "BE_TOKEN") as [secret |] eqn:Hs.
  - destruct (String.eqb_spec secret "") as [-> | Hne].
    + apply gate_open. by right.
    + apply (gate_accepts env req secret Hs Hne). rewrite Hh.
      unfold self_headers. destruct (env_set_some env _ _ Hs Hne) as [-> ->].
      simpl. rewrite lookup_insert_ne by done. rewrite lookup_insert_eq.
      rewrite bearer_token_header by done.
      change ("Bearer " +:+ secret) with ("Bearer" +:+ " " +:+ secret).
      rewrite split_space_cut, (split_space_one _ (Hsp _ eq_refl)); [done |].
      vm_compute. intros H. by repeat (inversion H as [| ? ? ? H']; subst; clear H; rename H' into H).
  - apply gate_open. by left.
Qed.
End GateHeaders.

(** ** Tags *)

Section Tags.
Import Str Re.

Lemma gsub_elem (m : list ascii -> option (list ascii)) (repl : list ascii)
      (k : nat) (s : list ascii) (c : ascii) :
  c ∈ gsub m repl k s -> c ∈ repl \/ c ∈ s.
Proof.
  revert k. induction s as [| d s IH]; intros k; simpl; [by intros ?%elem_of_nil |].
  destruct k.
  - destruct (m (d :: s)).
    + intros [? | H]%elem_of_app; [by left |].
      destruct (IH _ H); [by left | right; by right].
    + intros [-> | H]%elem_of_cons; [right; by left |].
      destruct (IH _ H); [by left | right; by right].
  - intros H. destruct (IH _ H); [by left | right; by right].
Qed.

Lemma to_gt_split (s rest : list ascii) :
  to_gt s = Some rest -> exists pre, s = pre ++ rest /\ length rest < length s.
Proof.
  revert rest. induction s as [| c s IH]; intros rest; simpl; [discriminate |].
  destruct (Ascii.eqb c ">").
  - intros [= ->]. exists [c]. split; [done | lia].
  - intros H. destruct (IH _ H) as (pre & -> & Hl). exists (c :: pre). split; [done |].
    simpl. lia.
Qed.

Lemma to_gt_none (s : list ascii) : to_gt s = None -> ">"%char ∉ s.
Proof.
  induction s as [| c s IH]; simpl; [intros _; apply not_elem_of_nil |].
  destruct (Ascii.eqb_spec c ">"); [discriminate |].
  intros H. apply not_elem_of_cons. split; [congruence | by apply IH].
Qed.

(** After the tag pattern has been replaced, no tag is left. *)
Lemma gsub_tag_tagless (s : list ascii) : tagless (gsub tag [" "%char] 0 s).
Proof.
  remember (length s) as n eqn:Hn. revert s Hn.
  induction n as [n IH] using lt_wf_ind. intros [| c s] Hn; [done |].
  simpl in Hn. destruct (tag (c :: s)) as [rest |] eqn:Ht.
  - assert (Hsplit : exists pre, s = pre ++ rest /\ length rest < length s).
    { simpl in Ht. destruct (Ascii.eqb c "<"); [by apply to_gt_split | discriminate]. }
    destruct Hsplit as (pre & -> & Hl).
    rewrite (gsub_at_match _ _ _ _ _ Ht). cbn [app tagless]. split; [discriminate |].
    apply (IH (length rest)); [lia | done].
  - rewrite (gsub_no_match _ _ _ _ Ht). cbn [tagless]. split.
    + intros ->. simpl in Ht. intros H.
      destruct (gsub_elem _ _ _ _ _ H) as [H' | H'].
      * apply list_elem_of_singleton in H'. discriminate.
      * by apply to_gt_none in Ht.
    + apply (IH (length s)); [lia | done].
Qed.

Lemma tagless_app_r (l1 l2 : list ascii) : tagless (l1 ++ l2) -> tagless l2.
Proof. induction l1 as [| c l1 IH]; [done |]. intros [_ H]. by apply IH. Qed.

Lemma tagless_app_l (l1 l2 : list ascii) : tagless (l1 ++ l2) -> tagless l1.
Proof.
  induction l1 as [| c l1 IH]; [done |]. simpl. intros [H1 H2]. split; [| by apply IH].
  intros Hc Hin. apply (H1 Hc). apply elem_of_app. by left.
Qed.

Lemma tagless_collapse (b : bool) (l : list ascii) : tagless l -> tagless (collapse b l).
Proof.
  revert b. induction l as [| c l IH]; intros b; [done |]. simpl. intros [H1 H2].
  assert (Hgt : forall b', ">"%char ∈ collapse b' l -> ">"%char ∈ l).
  { intros b' H. destruct (collapse_elem _ _ _ H) as [? | [? _]]; [discriminate | done]. }
  destruct (is_space c) eqn:E.
  - destruct b; [by apply IH |]. simpl. split; [discriminate | by apply IH].
  - simpl. split; [| by apply IH]. intros Hc Hin. apply (H1 Hc). by apply (Hgt false).
Qed.

Lemma text_tagless (html : string) : tagless (chars (textContent html)).
Proof.
  unfold textContent, trim. rewrite chars_of_chars.
  unfold replace_all at 1. rewrite chars_of_chars.
  change (chars " ") with [" "%char]. rewrite gsub_spaces_collapse.
  unfold replace_all at 1. rewrite chars_of_chars.
  change (chars " ") with [" "%char].
  generalize (chars (replace_all (element_end "style") ""
                       (replace_all (element_end "script") "" html))).
  intros u.
  destruct (trim_chars_infix (collapse false (gsub tag [" "%char] 0 u))) as (pre & post & Hi).
  pose proof (tagless_collapse false _ (gsub_tag_tagless u)) as Ht.
  rewrite Hi in Ht. by apply tagless_app_r, tagless_app_l in Ht.
Qed.
End Tags.

(** ** What the extractor returns *)

Section Extracted.
Import Str Re.
Variable w : World.

Lemma extract_inv (url : JS) (st st' : St) (e : Extracted) :
  extractContentFromURL w url st = (Ok e, st') ->
  exists page, net w (sent st) = inr page /\ r_ok page = true
               /\ e = extracted url (r_text page).
Proof.
  unfold extractContentFromURL, try_catch, bind, fetch.
  destruct (net w (sent st)) as [msg | page]; [discriminate |].
  destruct (r_ok page) eqn:Hok; simpl; [| discriminate].
  intros [= <- _]. eauto.
Qed.

Lemma take_prefix {A} (n : nat) (l : list A) : exists post, l = take n l ++ post.
Proof. exists (drop n l). by rewrite take_drop. Qed.

(** X5.  Whatever page comes back, the content of a successful extraction is
    at most 5000 characters long, holds no white space but single
    spaces, does not start with a space, and does not end with one
    unless it was cut at the limit. *)
Theorem extracted_content_is_clean (url : JS) (st st' : St) (e : Extracted) :
  extractContentFromURL w url st = (Ok e, st') ->
  String.length (content e) <= 5000
  /\ single_spaced (chars (content e))
  /\ no_leading_space (chars (content e))
  /\ (String.length (content e) < 5000 -> no_trailing_space (chars (content e))).
Proof.
  intros H. destruct (extract_inv _ _ _ _ H) as (page & _ & _ & ->).
  unfold extracted, content, substring0.
  rewrite length_of_chars, chars_of_chars, length_take.
  destruct (text_shape (r_text page)) as (Hs & Hl & Ht). cbn zeta in *.
  destruct (take_prefix 5000 (chars (textContent (r_text page)))) as [post Hp].
  split; [lia |]. split; [split |]; [| | split].
  - intros c Hc. apply (proj1 Hs). rewrite Hp. apply elem_of_app. by left.
  - destruct Hs as [_ Hs]. rewrite Hp in Hs. by apply no_double_space_app_l in Hs.
  - intros c l' E. apply (Hl c (l' ++ post)). rewrite Hp at 1. by rewrite E.
  - intros Hlt. rewrite take_ge by lia. exact Ht.
Qed.

(** X6.  The content of a successful extraction holds no tag: no [<] in
    it is followed, anywhere later, by a [>]. *)
Theorem extracted_content_has_no_tag (url : JS) (st st' : St) (e : Extracted) :
  extractContentFromURL w url st = (Ok e, st') ->
  tagless (chars (content e)).
Proof.
  intros H. destruct (extract_inv _ _ _ _ H) as (page & _ & _ & ->).
  unfold extracted, content, substring0. rewrite chars_of_chars.
  destruct (take_prefix 5000 (chars (textContent (r_text page)))) as [post Hp].
  pose proof (text_tagless (r_text page)) as Ht. rewrite Hp in Ht.
  by apply tagless_app_l in Ht.
Qed.

Lemma lazy_until_one_line_run (close s run rest : list ascii) :
  lazy_until close s = Some (run, rest) -> one_line run.
Proof.
  revert run rest. induction s as [| c s IH]; intros run rest; simpl.
  - destruct (lit_ci close []); [intros [= <- _]; constructor | discriminate].
  - destruct (lit_ci close (c :: s)); [intros [= <- _]; constructor |].
    destruct (is_newline c) eqn:E; [discriminate |].
    destruct (lazy_until close s) as [[r1 r2] |]; [| discriminate].
    intros [= <- _]. constructor; [done | by eapply IH].
Qed.

Lemma first_group_one_line (s g : list ascii) :
  first_group (element "title") s = Some g -> one_line g.
Proof.
  induction s as [| c s IH].
  - intros H. vm_compute in H. discriminate.
  - cbn [first_group]. destruct (element "title" (c :: s)) as [[g' r] |] eqn:E; [| exact IH].
    intros [= <-]. unfold element in E.
    destruct (lit_ci _ _); [| discriminate]. destruct (to_gt _); [| discriminate].
    by eapply lazy_until_one_line_run.
Qed.

(** X7.  The title taken from a page never holds a line terminator and
    never starts or ends with white space, whether it comes from a title
    element or is the default. *)
Theorem title_is_one_trimmed_line (html : string) :
  let t := chars (titleOf html) in
  one_line t /\ no_leading_space t /\ no_trailing_space t.
Proof.
  cbn zeta. unfold titleOf.
  destruct (first_group _ _) as [g |] eqn:E.
  - unfold trim. rewrite !chars_of_chars. split; [| apply trim_chars_trimmed].
    apply first_group_one_line in E.
    destruct (trim_chars_infix g) as (pre & post & Hi). rewrite Hi in E.
    unfold one_line in *. by apply Forall_app in E as [_ [E _]%Forall_app].
  - repeat split.
    + vm_compute. repeat constructor.
    + intros c l' [= <- _]. reflexivity.
    + intros c l' E'. apply (f_equal (@rev ascii)) in E'. rewrite rev_app_distr in E'.
      simpl in E'. injection E' as <- _. reflexivity.
Qed.
End Extracted.

(** ** The persister *)

Section Persister.
Import Str Re.
Variable w : World.

Lemma lit_app (p r : list ascii) : lit p (p ++ r) = Some r.
Proof. induction p as [| a p IH]; [done |]. simpl. by rewrite Ascii.eqb_refl. Qed.

Lemma lit_suffix (p s r : list ascii) : lit p s = Some r -> r `suffix_of` s.
Proof.
  revert s. induction p as [| a p IH]; intros s H; simpl in H.
  - by injection H as ->.
  - destruct s as [| b s]; [discriminate |].
    destruct (Ascii.eqb _ _); [| discriminate]. by apply suffix_cons_r, IH.
Qed.

Lemma lower_run_app (fmt rest : list ascii) (c : ascii) :
  lowercase fmt -> c = ";"%char -> lower_run (fmt ++ c :: rest) = c :: rest.
Proof.
  intros Hf ->. induction Hf as [| d fmt Hd Hf IH]; [done |].
  cbn [app lower_run]. cbv zeta. by rewrite Hd.
Qed.

(** X8.  A data URL of an image (a non-empty lower-case format name) is
    reduced to its payload; whatever the text, what remains is a final
    part of it. *)
Theorem strip_data_url_payload (fmt payload s : string) :
  (lowercase (chars fmt) -> fmt <> "" ->
   strip_data_url ("data:image/" +:+ fmt +:+ ";base64," +:+ payload) = payload)
  /\ chars (strip_data_url s) `suffix_of` chars s.
Proof.
  split.
  - intros Hf Hne. unfold strip_data_url. rewrite !chars_append.
    rewrite (lit_app (chars "data:image/")).
    change (chars ";base64,") with (";"%char :: chars "base64,").
    cbn [app]. rewrite (lower_run_app _ _ _ Hf eq_refl).
    assert (Hl : (length (";"%char :: chars "base64," ++ chars payload)
                  <? length (chars fmt ++ ";"%char :: chars "base64," ++ chars payload)) = true).
    { apply Nat.ltb_lt. rewrite length_app. destruct fmt; [done |]. simpl. lia. }
    rewrite Hl. change (";"%char :: chars "base64," ++ chars payload)
      with (chars ";base64," ++ chars payload).
    rewrite lit_app. apply of_chars_chars.
  - unfold strip_data_url.
    destruct (lit _ (chars s)) as [rest |] eqn:H1; [| done].
    destruct (_ <? _); [| done].
    destruct (lit _ (lower_run rest)) as [p |] eqn:H2; [| done].
    rewrite chars_of_chars. apply lit_suffix in H1, H2.
    etrans; [exact H2 |]. etrans; [| exact H1].
    clear. induction rest as [| c rest IH]; [done |]. simpl.
    destruct (_ && _); [by apply suffix_cons_r | done].
Qed.

(** X9.  A string payload on a disk that takes it: the directory is created
    only when it is missing, and one file is written, holding the
    decoding of the payload without its data-URL header. *)
Theorem save_writes_decoded_payload (s fname : string) (st : St) :
  (existsSync w (imagesDir w) = false -> mkdirSync w (imagesDir w) = None) ->
  writeFileSync w (path_join w (imagesDir w) fname) (base64_decode w (strip_data_url s)) = None ->
  saveImageToFolder w (JStr s) fname st
  = (Ok (saved_as (path_join w (imagesDir w) fname) fname),
     {| trace := trace st
                 ++ (if existsSync w (imagesDir w) then [] else [EvMkdir (imagesDir w)])
                 ++ [EvWrite (path_join w (imagesDir w) fname)
                       (base64_decode w (strip_data_url s))];
        sent := sent st |}).
Proof.
  intros Hm Hw. unfold saveImageToFolder, mkdir, write, imagesDir in *. run_unfold.
  destruct (existsSync w _); simpl.
  - rewrite Hw. reflexivity.
  - rewrite (Hm eq_refl). simpl. rewrite Hw. simpl. by rewrite <- app_assoc.
Qed.

(** X10.  No file is written unless the payload is a string and the
    target directory exists or could be created: otherwise the persister
    reports the error it caught and the trace gains no write. *)
Theorem save_writes_only_strings (data : JS) (fname : string) (st : St) :
  (forall s, data <> JStr s)
  \/ (existsSync w (imagesDir w) = false /\ mkdirSync w (imagesDir w) <> None) ->
  exists more e st',
    saveImageToFolder w data fname st = (Ok (save_failed (message w e)), st')
    /\ trace st' = trace st ++ more
    /\ Forall (fun ev => is_write ev = false) more.
Proof.
  intros H. unfold saveImageToFolder, mkdir, write, imagesDir in *. run_unfold.
  destruct H as [Hd | [He Hm]].
  - destruct (existsSync w _); simpl.
    + exists [], (TypeError "base64Data.replace"). rewrite app_nil_r.
      destruct data as [| | | | s | |];
        try (eexists; split; [reflexivity | split; [reflexivity | constructor]]).
      by destruct (Hd s).
    + destruct (mkdirSync w _) as [msg |]; simpl.
      * exists [EvMkdir (path_join w (cwd w) "ai_generated_images")], (Error msg).
        eexists; split; [reflexivity | split; [reflexivity | by repeat constructor]].
      * exists [EvMkdir (path_join w (cwd w) "ai_generated_images")],
          (TypeError "base64Data.replace").
        destruct data as [| | | | s | |];
          try (eexists; split; [reflexivity | split; [reflexivity | by repeat constructor]]).
        by destruct (Hd s).
  - rewrite He. simpl. destruct (mkdirSync w _) as [msg |]; [| done]. simpl.
    exists [EvMkdir (path_join w (cwd w) "ai_generated_images")], (Error msg).
    eexists; split; [reflexivity | split; [reflexivity | by repeat constructor]].
Qed.
End Persister.

(** ** Counting the events of a run *)

Section Counting.
Variable w : World.
Variable c : Event -> bool.

Lemma adds_ret {A} (n : nat) (a : A) : adds c n (ret a).
Proof. intros st. exists []. simpl. rewrite app_nil_r. split; [done | lia]. Qed.

Lemma adds_throw {A} (n : nat) (e : Exn) : adds c n (@throw A e).
Proof. intros st. exists []. simpl. rewrite app_nil_r. split; [done | lia]. Qed.

Lemma adds_lift {A} (n : nat) (o : Outcome A) : adds c n (lift o).
Proof. intros st. exists []. simpl. rewrite app_nil_r. split; [done | lia]. Qed.

Lemma adds_emit (n : nat) (e : Event) : adds c (S n) (emit e).
Proof. intros st. exists [e]. split; [done |]. simpl. destruct (c e); simpl; lia. Qed.

Lemma adds_emit_free (n : nat) (e : Event) : c e = false -> adds c n (emit e).
Proof. intros H st. exists [e]. split; [done |]. simpl. rewrite H. simpl. lia. Qed.

Lemma adds_fetch (n : nat) (r : FetchRequest) : adds c (S n) (fetch w r).
Proof.
  intros st. exists [EvFetch r]. unfold fetch.
  split; [by destruct (net w (sent st)) |]. simpl. destruct (c _); simpl; lia.
Qed.

Lemma adds_fetch_free (n : nat) (r : FetchRequest) :
  c (EvFetch r) = false -> adds c n (fetch w r).
Proof.
  intros H st. exists [EvFetch r]. unfold fetch.
  split; [by destruct (net w (sent st)) |]. simpl. rewrite H. simpl. lia.
Qed.

Lemma adds_bind {A B} (a b : nat) (m : M A) (k : A -> M B) :
  adds c a m -> (forall x, adds c b (k x)) -> adds c (a + b) (bind m k).
Proof.
  intros Hm Hk st. unfold bind. destruct (Hm st) as (m1 & H1 & L1).
  destruct (m st) as [[x | e] st1]; simpl in *.
  - destruct (Hk x st1) as (m2 & H2 & L2). exists (m1 ++ m2).
    rewrite H2, H1, app_assoc, List.filter_app, length_app. split; [done | lia].
  - exists m1. split; [done | lia].
Qed.

Lemma adds_bind0 {A B} (n : nat) (m : M A) (k : A -> M B) :
  adds c 0 m -> (forall x, adds c n (k x)) -> adds c n (bind m k).
Proof. apply (adds_bind 0 n). Qed.

Lemma adds_bind1 {A B} (n : nat) (m : M A) (k : A -> M B) :
  adds c 1 m -> (forall x, adds c n (k x)) -> adds c (S n) (bind m k).
Proof. apply (adds_bind 1 n). Qed.

Lemma adds_catch {A} (n : nat) (m : M A) (h : Exn -> M A) :
  adds c n m -> (forall e, adds c 0 (h e)) -> adds c n (try_catch m h).
Proof.
  intros Hm Hh st. unfold try_catch. destruct (Hm st) as (m1 & H1 & L1).
  destruct (m st) as [[x | e] st1]; simpl in *.
  - exists m1. split; [done | lia].
  - destruct (Hh e st1) as (m2 & H2 & L2). exists (m1 ++ m2).
    rewrite H2, H1, app_assoc, List.filter_app, length_app. split; [done | lia].
Qed.

Lemma adds_from_start {A} (n : nat) (m : M A) :
  adds c n m -> length (List.filter c (trace (m start).2)) <= n.
Proof. intros H. destruct (H start) as (more & -> & L). exact L. Qed.
End Counting.

(** Bound a computation by walking its text: a pure step costs nothing,
    a counted request or write one unit. *)
Ltac adds_tac :=
  repeat first
    [ apply adds_ret | apply adds_throw | apply adds_lift
    | apply adds_fetch_free; reflexivity
    | apply adds_emit_free; reflexivity
    | apply adds_fetch | apply adds_emit
    | match goal with H : context [adds] |- _ => apply H end
    | progress cbv zeta
    | apply adds_bind0; [solve [adds_tac] | intros ?]
    | apply adds_bind1; [solve [adds_tac] | intros ?]
    | apply adds_catch; [| intros ?]
    | match goal with
      | |- adds _ _ (if ?b then _ else _) => destruct b
      | |- adds _ _ (match ?x with _ => _ end) => destruct x
      end ].

Section EventBounds.
Variable w : World.
Variable env : gmap string string.

Lemma length_fetches (t : list Event) : length (fetches t) = length (List.filter is_fetch t).
Proof. induction t as [| [r | d | f x] t IH]; simpl; [done | by rewrite IH | done | done]. Qed.

Lemma save_adds_one_write (data : JS) (fname : string) :
  adds is_write 1 (saveImageToFolder w data fname).
Proof. unfold saveImageToFolder, mkdir, write. adds_tac. Qed.

Lemma save_adds_no_fetch (data : JS) (fname : string) :
  adds is_fetch 0 (saveImageToFolder w data fname).
Proof. unfold saveImageToFolder, mkdir, write. adds_tac. Qed.

Lemma fal_finish_adds_one_write (prefix : string) (r : FetchResponse) :
  adds is_write 1 (fal_finish w prefix r).
Proof.
  unfold fal_finish.
  pose proof save_adds_one_write as Hs. adds_tac.
Qed.

Lemma fal_finish_adds_no_fetch (prefix : string) (r : FetchResponse) :
  adds is_fetch 0 (fal_finish w prefix r).
Proof.
  unfold fal_finish.
  pose proof save_adds_no_fetch as Hs. adds_tac.
Qed.

(** X21.  Whatever the collaborators answer, one run of an image route
    sends at most one request and writes at most one file. *)
Theorem image_routes_one_request_one_file (req : Request) :
  let t1 := trace (fal_generate w env req start).2 in
  let t2 := trace (fal_flux_lora_generate w env req start).2 in
  length (fetches t1) <= 1 /\ length (List.filter is_write t1) <= 1
  /\ length (fetches t2) <= 1 /\ length (List.filter is_write t2) <= 1.
Proof.
  cbn zeta. rewrite !length_fetches.
  pose proof fal_finish_adds_one_write as H1.
  pose proof fal_finish_adds_no_fetch as H2.
  repeat split; apply adds_from_start; unfold fal_generate, fal_flux_lora_generate;
    adds_tac.
Qed.

Lemma extract_adds (c : Event -> bool) (url : JS) :
  adds c 1 (extractContentFromURL w url).
Proof. unfold extractContentFromURL. adds_tac. Qed.

Lemma extract_adds_no_disk (url : JS) : adds is_disk 0 (extractContentFromURL w url).
Proof. unfold extractContentFromURL. adds_tac. Qed.

Lemma image_step_adds (c : Event -> bool) (sd : JS) : adds c 1 (image_step w env sd).
Proof. unfold image_step. adds_tac. Qed.

Lemma image_step_adds_no_disk (sd : JS) : adds is_disk 0 (image_step w env sd).
Proof. unfold image_step. adds_tac. Qed.

Lemma caption_step_adds (c : Event -> bool) (sd : JS) : adds c 1 (caption_step w env sd).
Proof. unfold caption_step, trim_opt. adds_tac. Qed.

Lemma caption_step_adds_no_disk (sd : JS) : adds is_disk 0 (caption_step w env sd).
Proof. unfold caption_step, trim_opt. adds_tac. Qed.

(** X22.  Whatever the collaborators answer, one run of the workflow
    sends at most four requests and never touches the disk itself. *)
Theorem workflow_sends_at_most_four (req : Request) :
  let t := trace (process_news_url w env req start).2 in
  length (fetches t) <= 4 /\ List.filter is_disk t = [].
Proof.
  cbn zeta. rewrite length_fetches.
  pose proof extract_adds as H1. pose proof extract_adds_no_disk as H2.
  pose proof image_step_adds as H3. pose proof image_step_adds_no_disk as H4.
  pose proof caption_step_adds as H5. pose proof caption_step_adds_no_disk as H6.
  split; [| apply length_zero_iff_nil, Nat.le_0_r];
    apply adds_from_start; unfold process_news_url; adds_tac.
Qed.

(** X23.  One run of the summarizer, in either copy, sends at most one
    request and never touches the disk. *)
Theorem summarizer_sends_at_most_one (req : Request) :
  let t := trace (summarize_article w env req start).2 in
  let t' := trace (McpTools.summarize_article w env req start).2 in
  length (fetches t) <= 1 /\ List.filter is_disk t = []
  /\ length (fetches t') <= 1 /\ List.filter is_disk t' = [].
Proof.
  cbn zeta. rewrite !length_fetches.
  repeat split; try apply length_zero_iff_nil, Nat.le_0_r;
    apply adds_from_start; unfold summarize_article, McpTools.summarize_article, trim_of, parse;
    adds_tac.
Qed.

(** X24.  The LoRA route of the second copy sends at most one request
    and never touches the disk: it does not persist the image. *)
Theorem mcp_lora_never_touches_disk (req : Request) :
  let t := trace (McpTools.fal_flux_lora_generate w env req start).2 in
  length (fetches t) <= 1 /\ List.filter is_disk t = [].
Proof.
  cbn zeta. rewrite !length_fetches.
  repeat split; try apply length_zero_iff_nil, Nat.le_0_r;
    apply adds_from_start; unfold McpTools.fal_flux_lora_generate; adds_tac.
Qed.
End EventBounds.

(** ** The summarizer, failure by failure *)

Section SummarizerFailures.
Variable w : World.
Variable env : gmap string string.

(** X11.  Without a provider credential the summarizer answers 500 and
    sends nothing. *)
Theorem summarize_needs_key (req : Request) (text : JS) (st : St) :
  get_prop (body req) "text" = Ok text -> truthy text = true ->
  env_set env "OPENAI_API_KEY" = false ->
  summarize_article w env req st
  = (Ok (status_json 500 (obj [("error", JStr "OpenAI API key not configured")])), st)
  /\ McpTools.summarize_article w env req st
     = (Ok (status_json 500 (obj [("error", JStr "OpenAI API key not configured")])), st).
Proof.
  intros Ht Htt Hk. split; unfold summarize_article, McpTools.summarize_article;
    rewrite Ht; step; rewrite Htt, Hk; reflexivity.
Qed.

(** X12.  A non-success status of the text provider is handed on as the
    status of the answer, with the provider's body as details; a
    transport failure becomes a 500 with the failure's message. *)
Theorem summarize_hands_on_provider_failure (req : Request) (text : JS) (st : St) :
  get_prop (body req) "text" = Ok text -> truthy text = true ->
  env_set env "OPENAI_API_KEY" = true ->
  (forall r, net w (sent st) = inr r -> r_ok r = false ->
     summarize_article w env req st
     = (Ok (upstream_error "OpenAI API error: " "details" r),
        sent_one st (summarizer_request env text))
     /\ McpTools.summarize_article w env req st
        = (Ok (upstream_error "OpenAI API error: " "details" r),
           sent_one st (summarizer_request env text)))
  /\ (forall msg, net w (sent st) = inl msg ->
        summarize_article w env req st
        = (Ok (status_json 500 (obj [("error", JStr msg)])),
           sent_one st (summarizer_request env text))
        /\ McpTools.summarize_article w env req st
           = (Ok (status_json 500 (obj [("error", JStr msg)])),
              sent_one st (summarizer_request env text))).
Proof.
  intros Ht Htt Hk. split.
  - intros r Hn Hok. split; unfold summarize_article, McpTools.summarize_article;
      rewrite Ht; step; rewrite Htt, Hk; cbn [negb];
      unfold try_catch at 1, bind at 1;
      rewrite (fetch_reply w _ r) by exact Hn; cbv beta iota; rewrite Hok; reflexivity.
  - intros msg Hn. split; unfold summarize_article, McpTools.summarize_article;
      rewrite Ht; step; rewrite Htt, Hk; cbn [negb];
      unfold try_catch at 1, bind at 1, fetch; rewrite Hn; reflexivity.
Qed.

(** X13.  A reply without text in its first choice (absent, null or
    empty) is answered 500 after the one request. *)
Theorem summarize_needs_content (req : Request) (text : JS) (r : FetchResponse)
        (data answer : JS) (st : St) :
  get_prop (body req) "text" = Ok text -> truthy text = true ->
  env_set env "OPENAI_API_KEY" = true ->
  net w (sent st) = inr r -> reply_json r data ->
  first_choice_content data answer -> truthy answer = false ->
  summarize_article w env req st
  = (Ok (status_json 500 (obj [("error", JStr "No content received from OpenAI")])),
     sent_one st (summarizer_request env text))
  /\ McpTools.summarize_article w env req st
     = (Ok (status_json 500 (obj [("error", JStr "No content received from OpenAI")])),
        sent_one st (summarizer_request env text)).
Proof.
  intros Ht Htt Hk Hn [Hok Hj] (choices & first & Hc & Hf & Hcont) Hfalse.
  split; unfold summarize_article, McpTools.summarize_article;
    rewrite Ht; step; rewrite Htt, Hk; cbn [negb];
    unfold try_catch at 1, bind at 1;
    rewrite (fetch_reply w _ r) by exact Hn; cbv beta iota;
    rewrite Hok; cbn [negb]; rewrite Hj; step; rewrite Hc; step; rewrite Hf; step;
    rewrite Hcont, Hfalse; reflexivity.
Qed.

(** X14.  A reply text that is not a string, does not parse, or parses to a
    primitive value is answered 500 with the text as it was received,
    white space and fences included. *)
Theorem summarize_reports_raw_content (req : Request) (text : JS) (r : FetchResponse)
        (data answer : JS) (st : St) :
  get_prop (body req) "text" = Ok text -> truthy text = true ->
  env_set env "OPENAI_API_KEY" = true ->
  net w (sent st) = inr r -> reply_json r data ->
  first_choice_content data answer -> truthy answer = true ->
  (forall c, answer = JStr c ->
     JSON_parse w (unfence (Str.trim c)) = None
     \/ exists v, JSON_parse w (unfence (Str.trim c)) = Some v /\ is_container v = false) ->
  summarize_article w env req st
  = (Ok (parse_failure answer), sent_one st (summarizer_request env text)).
Proof.
  intros Ht Htt Hk Hn [Hok Hj] (choices & first & Hc & Hf & Hcont) Htrue Hbad.
  unfold summarize_article.
  rewrite Ht; step; rewrite Htt, Hk; cbn [negb];
    unfold try_catch at 1, bind at 1;
    rewrite (fetch_reply w _ r) by exact Hn; cbv beta iota;
    rewrite Hok; cbn [negb]; rewrite Hj; step; rewrite Hc; step; rewrite Hf; step;
    rewrite Hcont, Htrue; cbn [negb].
  cbv beta iota zeta delta [trim_of try_catch bind ret lift parse throw].
  destruct answer as [| | b | q | c | l | l]; try reflexivity.
  destruct (Hbad c eq_refl) as [-> | (v & -> & Hv)]; [reflexivity |].
  destruct v; try discriminate; reflexivity.
Qed.
End SummarizerFailures.

(** ** Code fences *)

Section Fences.
Import Str Re.

Lemma prefix_append (p r : string) : String.prefix p (p +:+ r) = true.
Proof.
  induction p as [| a p IH]; simpl; [by destruct r |].
  destruct (ascii_dec a a); [exact IH | congruence].
Qed.

Lemma drop_spaces_run (pre l : list ascii) :
  Forall (fun c => is_space c = true) pre -> drop_spaces (pre ++ l) = drop_spaces l.
Proof. induction 1 as [| c pre Hc _ IH]; [done |]. simpl. by rewrite Hc. Qed.

Lemma drop_spaces_id (l : list ascii) : no_leading_space l -> drop_spaces l = l.
Proof. destruct l as [| c l]; [done |]. intros H. simpl. by rewrite (H c l eq_refl). Qed.

Lemma no_trailing_rev (l : list ascii) : no_trailing_space l -> no_leading_space (rev l).
Proof.
  intros H c l' E. apply (H c (rev l')).
  rewrite <- (rev_involutive l), E. reflexivity.
Qed.

(** X15.  A reply wrapped in a json code fence, with any white space
    between fence and body, is unwrapped to its body. *)
Theorem unfence_json_fence (ws1 body ws2 : string) :
  Forall (fun c => is_space c = true) (chars ws1) ->
  Forall (fun c => is_space c = true) (chars ws2) ->
  body <> "" ->
  no_leading_space (chars body) -> no_trailing_space (chars body) ->
  startsWith body "```" = false ->
  unfence ("```json" +:+ ws1 +:+ body +:+ ws2 +:+ "```") = body.
Proof.
  intros H1 H2 Hne Hl Ht Hb. unfold unfence, startsWith.
  rewrite (prefix_append "```json").
  assert (Hc : strip_close_fence
                 (strip_open_fence "```json" ("```json" +:+ ws1 +:+ body +:+ ws2 +:+ "```"))
               = body).
  { unfold strip_open_fence. rewrite !chars_append, (lit_app (chars "```json")).
    rewrite (drop_spaces_run _ _ H1).
    assert (Hd : drop_spaces (chars body ++ chars ws2 ++ chars "```")
                 = chars body ++ chars ws2 ++ chars "```").
    { destruct (chars body) as [| c l] eqn:E.
      - destruct body; [done | discriminate].
      - simpl. by rewrite (Hl c l eq_refl). }
    rewrite Hd. unfold strip_close_fence. rewrite chars_of_chars.
    rewrite !rev_app_distr. change (rev (chars "```")) with (chars "```").
    rewrite <- app_assoc, (lit_app (chars "```")).
    assert (H2' : Forall (fun c => is_space c = true) (rev (chars ws2))).
    { apply Forall_forall. intros x Hx. rewrite elem_of_rev in Hx.
      by apply (proj1 (Forall_forall _ _) H2). }
    rewrite (drop_spaces_run _ _ H2').
    rewrite (drop_spaces_id _ (no_trailing_rev _ Ht)), rev_involutive.
    apply of_chars_chars. }
  rewrite Hc. unfold startsWith in Hb. by rewrite Hb.
Qed.
End Fences.

(** ** The image routes, failure by failure *)

Section ImageFailures.
Import Str Re.
Variable w : World.
Variable env : gmap string string.

(** X16.  A missing or empty prompt is answered 400 before anything else is
    looked at: the list of adapters, the credential, the provider. *)
Theorem prompt_is_checked_first (req : Request) (p : JS) (st : St) :
  get_prop (body req) "prompt" = Ok p -> truthy p = false ->
  fal_generate w env req st = (Ok prompt_is_required, st)
  /\ fal_flux_lora_generate w env req st = (Ok prompt_is_required, st)
  /\ McpTools.fal_flux_lora_generate w env req st = (Ok prompt_is_required, st).
Proof.
  intros Hp Ht. repeat split;
    unfold fal_generate, fal_flux_lora_generate, McpTools.fal_flux_lora_generate;
    rewrite Hp; step; cbv zeta; rewrite Ht; reflexivity.
Qed.

Lemma loras_given_truthy (b : JS) : loras_given b -> truthy (get_prop_opt b "loras") = true.
Proof. intros [H _]. by destruct (get_prop_opt b "loras"). Qed.

(** X17.  Without the image provider's credential a valid request is
    answered 500 and nothing is sent. *)
Theorem image_routes_need_key (req : Request) (p : JS) (st : St) :
  get_prop (body req) "prompt" = Ok p -> truthy p = true ->
  env_set env "FAL_KEY" = false ->
  fal_generate w env req st = (Ok fal_key_missing, st)
  /\ (loras_given (body req) ->
      fal_flux_lora_generate w env req st = (Ok fal_key_missing, st)
      /\ McpTools.fal_flux_lora_generate w env req st = (Ok fal_key_missing, st)).
Proof.
  intros Hp Ht Hk. split.
  - unfold fal_generate. rewrite Hp. step. cbv zeta. rewrite Ht, Hk. reflexivity.
  - intros Hl. pose proof (loras_given_truthy _ Hl) as Hlt. destruct Hl as [Ha Hz].
    split; unfold fal_flux_lora_generate, McpTools.fal_flux_lora_generate;
      rewrite Hp; step; cbv zeta; rewrite Ht, Hlt, Ha, Hz, Hk; reflexivity.
Qed.

Lemma prompt_read (req : Request) (p : JS) :
  get_prop (body req) "prompt" = Ok p -> get_prop_opt (body req) "prompt" = p.
Proof. intros H. unfold get_prop_opt. by rewrite H. Qed.

Lemma fal_generate_run (req : Request) (p : JS) (r : FetchResponse) (st : St) :
  get_prop (body req) "prompt" = Ok p -> truthy p = true ->
  env_set env "FAL_KEY" = true -> net w (sent st) = inr r ->
  fal_generate w env req st
  = try_catch (fal_finish w "generated_" r)
      (fun error => ret (status_json 500 (obj [("error", JStr (message w error))])))
      (sent_one st (flux_request env (body req))).
Proof.
  intros Hp Ht Hk Hn. unfold fal_generate. rewrite Hp. step. cbv zeta.
  rewrite Ht, Hk. cbn [negb]. unfold try_catch, bind.
  rewrite (fetch_reply w _ r) by exact Hn. cbv beta iota.
  unfold flux_request, fal_payload_of. rewrite (prompt_read _ _ Hp). reflexivity.
Qed.

Lemma fal_lora_run (req : Request) (p : JS) (r : FetchResponse) (st : St) :
  get_prop (body req) "prompt" = Ok p -> truthy p = true -> loras_given (body req) ->
  env_set env "FAL_KEY" = true -> net w (sent st) = inr r ->
  fal_flux_lora_generate w env req st
  = try_catch (fal_finish w "lora_" r)
      (fun error => ret (status_json 500 (obj [("error", JStr (message w error))])))
      (sent_one st (flux_lora_request env (body req))).
Proof.
  intros Hp Ht Hl Hk Hn. pose proof (loras_given_truthy _ Hl) as Hlt. destruct Hl as [Ha Hz].
  unfold fal_flux_lora_generate. rewrite Hp. step. cbv zeta.
  rewrite Ht, Hlt, Ha, Hz, Hk. cbn [negb orb]. unfold try_catch, bind.
  rewrite (fetch_reply w _ r) by exact Hn. cbv beta iota.
  unfold flux_lora_request, lora_payload_of. rewrite (prompt_read _ _ Hp). reflexivity.
Qed.

Lemma fal_finish_upstream (prefix : string) (r : FetchResponse) (st : St) :
  r_ok r = false ->
  fal_finish w prefix r st = (Ok (upstream_error "FAL API error: " "fal" r), st).
Proof. intros H. unfold fal_finish. rewrite H. reflexivity. Qed.

Lemma fal_finish_no_image (prefix : string) (r : FetchResponse) (data : JS) (st : St) :
  reply_json r data -> lacks_image data ->
  fal_finish w prefix r st = (Ok (no_image data), st).
Proof.
  intros [Hok Hj] (images & Hi & H). unfold fal_finish. rewrite Hok. cbn [negb].
  rewrite Hj. step. cbv zeta. rewrite Hi. step.
  destruct H as [-> | (image & Hf & H)]; [reflexivity |].
  destruct (truthy images); [| reflexivity]. cbn [negb]. rewrite Hf. step.
  destruct H as [-> | (u & Hu & Hut)]; [reflexivity |].
  destruct (truthy image); [| reflexivity]. cbn [negb]. rewrite Hu. step.
  rewrite Hut. reflexivity.
Qed.

(** X18.  A non-success status of the image provider is handed on as the
    status of the answer with the provider's body; nothing is stored. *)
Theorem image_routes_hand_on_provider_failure
        (req : Request) (p : JS) (r : FetchResponse) (st : St) :
  get_prop (body req) "prompt" = Ok p -> truthy p = true ->
  env_set env "FAL_KEY" = true -> net w (sent st) = inr r -> r_ok r = false ->
  fal_generate w env req st
  = (Ok (upstream_error "FAL API error: " "fal" r), sent_one st (flux_request env (body req)))
  /\ (loras_given (body req) ->
      fal_flux_lora_generate w env req st
      = (Ok (upstream_error "FAL API error: " "fal" r),
         sent_one st (flux_lora_request env (body req)))).
Proof.
  intros Hp Ht Hk Hn Hok. split.
  - rewrite (fal_generate_run req p r st Hp Ht Hk Hn). unfold try_catch.
    by rewrite fal_finish_upstream.
  - intros Hl. rewrite (fal_lora_run req p r st Hp Ht Hl Hk Hn). unfold try_catch.
    by rewrite fal_finish_upstream.
Qed.

(** X19.  A provider reply without an image url is answered 500 together
    with the reply; nothing is stored. *)
Theorem image_routes_need_image_url
        (req : Request) (p : JS) (r : FetchResponse) (data : JS) (st : St) :
  get_prop (body req) "prompt" = Ok p -> truthy p = true ->
  env_set env "FAL_KEY" = true -> net w (sent st) = inr r ->
  reply_json r data -> lacks_image data ->
  fal_generate w env req st
  = (Ok (no_image data), sent_one st (flux_request env (body req)))
  /\ (loras_given (body req) ->
      fal_flux_lora_generate w env req st
      = (Ok (no_image data), sent_one st (flux_lora_request env (body req)))).
Proof.
  intros Hp Ht Hk Hn Hj Hl. split.
  - rewrite (fal_generate_run req p r st Hp Ht Hk Hn). unfold try_catch.
    by rewrite (fal_finish_no_image _ _ _ _ Hj Hl).
  - intros Hlo. rewrite (fal_lora_run req p r st Hp Ht Hlo Hk Hn). unfold try_catch.
    by rewrite (fal_finish_no_image _ _ _ _ Hj Hl).
Qed.

Lemma gsub_dash (s : list ascii) : gsub colon_or_dot ["-"%char] 0 s = map dash s.
Proof.
  induction s as [| c s IH]; [done |].
  cbn [gsub colon_or_dot map]. unfold dash.
  destruct ((Ascii.eqb c ":") || (Ascii.eqb c "."))%bool; cbn [app].
  - by rewrite Nat.sub_diag, IH.
  - by rewrite IH.
Qed.

Lemma dash_safe (c : ascii) : dash c <> ":"%char /\ dash c <> "."%char.
Proof.
  unfold dash. destruct (Ascii.eqb_spec c ":"), (Ascii.eqb_spec c "."); simpl;
    split; congruence.
Qed.

Lemma fal_finish_saved (prefix : string) (r : FetchResponse) (u : JS) (p : string)
      (st st' : St) :
  reply_has_image r u ->
  saveImageToFolder w u (filename_for w prefix) st
  = (Ok (saved_as p (filename_for w prefix)), st') ->
  fal_finish w prefix r st = (Ok (saved_answer u (filename_for w prefix)), st').
Proof.
  intros (Hok & data & images & image & Hj & Hi & Hti & Hf & Htf & Hu & Htu) Hs.
  unfold fal_finish. run_unfold. rewrite Hok, Hj. simpl. rewrite Hi, Hti. simpl.
  rewrite Hf, Htf. simpl. rewrite Hu, Htu. simpl.
  unfold filename_for in Hs. rewrite Hs. reflexivity.
Qed.

(** X20.  When the image is stored, the answer names the file: the route's
    prefix, the time stamp with every colon and dot turned into a dash,
    and the extension. *)
Theorem stored_image_is_named_by_time
        (req : Request) (p : JS) (r : FetchResponse) (u : JS) (file : string) (st st' : St) :
  get_prop (body req) "prompt" = Ok p -> truthy p = true ->
  env_set env "FAL_KEY" = true -> net w (sent st) = inr r ->
  reply_has_image r u ->
  saveImageToFolder w u (filename_for w "generated_") (sent_one st (flux_request env (body req)))
  = (Ok (saved_as file (filename_for w "generated_")), st') ->
  exists stamp,
    fal_generate w env req st
    = (Ok (saved_answer u ("generated_" +:+ stamp +:+ ".jpg")), st')
    /\ chars stamp = map dash (chars (now_iso w))
    /\ (":"%char ∉ chars stamp) /\ ("."%char ∉ chars stamp).
Proof.
  intros Hp Ht Hk Hn Hi Hs.
  exists (replace_all colon_or_dot "-" (now_iso w)).
  assert (Hc : chars (replace_all colon_or_dot "-" (now_iso w)) = map dash (chars (now_iso w))).
  { unfold replace_all. rewrite chars_of_chars. apply gsub_dash. }
  split; [| split; [exact Hc | rewrite Hc; split]].
  - rewrite (fal_generate_run req p r st Hp Ht Hk Hn). unfold try_catch.
    by rewrite (fal_finish_saved _ _ _ _ _ _ Hi Hs).
  - intros (c & E & _)%list_elem_of_fmap. by destruct (dash_safe c).
  - intros (c & E & _)%list_elem_of_fmap. by destruct (dash_safe c).
Qed.
End ImageFailures.

(** ** The workflow, failure by failure *)

Section WorkflowFailures.
Variable w : World.
Variable env : gmap string string.

(** X25.  A missing url is answered 400 and nothing is sent. *)
Theorem url_is_checked_first (req : Request) (u : JS) (st : St) :
  get_prop (body req) "url" = Ok u -> truthy u = false ->
  process_news_url w env req st = (Ok url_is_required, st).
Proof.
  intros Hu Ht. unfold process_news_url. rewrite Hu. step. rewrite Ht. reflexivity.
Qed.


Lemma workflow_to_summary (req : Request) (url : JS) (page r : FetchResponse) :
  get_prop (body req) "url" = Ok url -> truthy url = true ->
  net w 0 = inr page -> r_ok page = true -> net w 1 = inr r ->
  process_news_url w env req start
  = try_catch
      (if negb (r_ok r)
       then throw (Error ("Summary failed: " +:+ pretty (r_status r)))
       else
         summaryData <- lift (r_json r) ;;
         _ <- lift (get_prop summaryData "summary_one_liner") ;;
         action <- lift (get_prop summaryData "action") ;;
         if is_SKIP action
         then ret (skipped url (titleOf (r_text page)))
         else
           imageData <- image_step w env summaryData ;;
           instagramCaption <- caption_step w env summaryData ;;
           summary <- lift (get_prop summaryData "summary_one_liner") ;;
           visual_brief <- lift (get_prop summaryData "visual_brief") ;;
           image_prompt <- lift (get_prop summaryData "image_prompt") ;;
           image_url <- lift (get_prop imageData "image_url") ;;
           saved_image <- lift (get_prop imageData "saved_to_file") ;;
           ret (json (obj [("status", JStr "success");
                           ("url", url);
                           ("title", JStr (titleOf (r_text page)));
                           ("summary", summary);
                           ("visual_brief", visual_brief);
                           ("image_prompt", image_prompt);
                           ("image_url", image_url);
                           ("saved_image", saved_image);
                           ("instagram_caption", instagramCaption);
                           ("timestamp", JStr (now_iso w))])))
      (fun error => ret (failed (message w error)))
      (after_summary env url page).
Proof.
  intros Hu Ht Hn0 Hok0 Hn1. unfold process_news_url. rewrite Hu. step. rewrite Ht. cbn [negb].
  unfold try_catch, bind at 1.
  rewrite (extract_ok w url page start Hn0 Hok0). cbv beta iota. unfold bind at 1.
  rewrite (fetch_reply w _ r) by exact Hn1. cbv beta iota. reflexivity.
Qed.




End WorkflowFailures.

(** ** The further properties on stub collaborators *)

Section FurtherExamples.
Import Stub Str.

Ltac no_such_char :=
  let H := fresh in
  intros H; apply list_elem_of_In in H; simpl in H; intuition discriminate.

Lemma gate_passes_exactly_on_second_piece_witness :
  authenticateToken env_secret (post_auth "Bearer s3cret" (obj [])) = Next.
Proof.
  apply (proj2 (gate_passes_exactly_on_second_piece env_secret
                  (post_auth "Bearer s3cret" (obj [])) "s3cret" "Bearer s3cret"
                  eq_refl ltac:(discriminate) eq_refl)).
  reflexivity.
Defined.

Lemma secret_with_space_locks_out_witness :
  authenticateToken env_spaced (post_auth "Bearer my secret" (obj [])) = Respond unauthorized.
Proof.
  apply (proj1 (secret_with_space_locks_out env_spaced
                  (post_auth "Bearer my secret" (obj [])) "my secret" eq_refl
                  ltac:(apply list_elem_of_In; simpl; auto))).
Defined.

Lemma scheme_and_secret_pass_witness :
  authenticateToken env_secret (post_auth "Token s3cret and more" (obj [])) = Next.
Proof.
  apply (proj1 (scheme_and_secret_pass env_secret
                  (post_auth "Token s3cret and more" (obj [])) "s3cret" "Token" "and more"
                  eq_refl ltac:(discriminate) ltac:(no_such_char) ltac:(no_such_char)
                  (or_intror eq_refl))).
Defined.

Lemma loopback_passes_gate_witness :
  authenticateToken env_secret (post_auth "Bearer s3cret" (obj [("text", JStr "News")])) = Next.
Proof.
  apply (loopback_passes_gate env_secret).
  - intros secret H. vm_compute in H. injection H as <-. no_such_char.
  - reflexivity.
Defined.

Lemma extracted_content_is_clean_witness :
  String.length (content (extracted article page_one_line)) <= 5000
  /\ single_spaced (chars (content (extracted article page_one_line))).
Proof.
  destruct (extracted_content_is_clean (world [page_reply] []) article start
              {| trace := [EvFetch (article_request article)]; sent := 1 |}
              (extracted article page_one_line) eq_refl) as (H1 & H2 & _).
  split; assumption.
Defined.

Lemma extracted_content_has_no_tag_witness :
  tagless (chars (content (extracted article page_multi_line))).
Proof.
  apply (extracted_content_has_no_tag (world [reply 200 page_multi_line JNull] []) article start
           {| trace := [EvFetch (article_request article)]; sent := 1 |}
           (extracted article page_multi_line) eq_refl).
Defined.

Lemma strip_data_url_payload_witness :
  Re.strip_data_url data_url = "AAAA".
Proof.
  apply (proj1 (strip_data_url_payload "jpeg" "AAAA" "")).
  - repeat constructor.
  - discriminate.
Defined.

Lemma save_writes_decoded_payload_witness :
  saveImageToFolder (world [] []) (JStr data_url) "a.jpg" start
  = (Ok (saved_as "/app/ai_generated_images/a.jpg" "a.jpg"),
     {| trace := [EvWrite "/app/ai_generated_images/a.jpg" "AAAA"]; sent := 0 |}).
Proof.
  apply (save_writes_decoded_payload (world [] []) data_url "a.jpg" start).
  - discriminate.
  - reflexivity.
Defined.

Lemma save_writes_only_strings_witness :
  exists more e st',
    saveImageToFolder (world [] []) (num 5) "a.jpg" start
    = (Ok (save_failed (message (world [] []) e)), st')
    /\ trace st' = more
    /\ Forall (fun ev => is_write ev = false) more.
Proof.
  apply (save_writes_only_strings (world [] []) (num 5) "a.jpg" start).
  left. intros s. discriminate.
Defined.

Lemma summarize_needs_key_witness :
  summarize_article (world [] []) env_bare (post (obj [("text", JStr "news")])) start
  = (Ok (status_json 500 (obj [("error", JStr "OpenAI API key not configured")])), start).
Proof.
  apply (proj1 (summarize_needs_key (world [] []) env_bare (post (obj [("text", JStr "news")]))
                  (JStr "news") start eq_refl eq_refl eq_refl)).
Defined.

Lemma summarize_hands_on_provider_failure_witness :
  (summarize_article (world [busy] []) env_open (post (obj [("text", JStr "news")])) start).1
  = Ok (status_json 503 (obj [("error", JStr "OpenAI API error: 503");
                              ("details", JStr "overloaded")])).
Proof.
  rewrite (proj1 (proj1 (summarize_hands_on_provider_failure (world [busy] []) env_open
                           (post (obj [("text", JStr "news")])) (JStr "news") start
                           eq_refl eq_refl eq_refl) busy eq_refl eq_refl)).
  reflexivity.
Defined.

Lemma summarize_needs_content_witness :
  (summarize_article (world [chat_reply (JStr "")] []) env_open
     (post (obj [("text", JStr "news")])) start).1
  = Ok (status_json 500 (obj [("error", JStr "No content received from OpenAI")])).
Proof.
  rewrite (proj1 (summarize_needs_content (world [chat_reply (JStr "")] []) env_open
                    (post (obj [("text", JStr "news")])) (JStr "news")
                    (chat_reply (JStr "")) _ (JStr "") start
                    eq_refl eq_refl eq_refl eq_refl (conj eq_refl eq_refl)
                    (ex_intro _ _ (ex_intro _ _ (conj eq_refl (conj eq_refl eq_refl))))
                    eq_refl)).
  reflexivity.
Defined.

Lemma summarize_reports_raw_content_witness :
  (summarize_article (world [chat_reply (JStr " not json ")] []) env_open
     (post (obj [("text", JStr "news")])) start).1
  = Ok (parse_failure (JStr " not json ")).
Proof.
  rewrite (summarize_reports_raw_content (world [chat_reply (JStr " not json ")] []) env_open
             (post (obj [("text", JStr "news")])) (JStr "news")
             (chat_reply (JStr " not json ")) _ (JStr " not json ") start
             eq_refl eq_refl eq_refl eq_refl (conj eq_refl eq_refl)
             (ex_intro _ _ (ex_intro _ _ (conj eq_refl (conj eq_refl eq_refl))))
             eq_refl).
  - reflexivity.
  - intros c [= <-]. left. reflexivity.
Defined.

Lemma unfence_json_fence_witness :
  unfence ("```json" +:+ nl +:+ "{}" +:+ nl +:+ "```") = "{}".
Proof.
  apply (unfence_json_fence nl "{}" nl).
  - repeat constructor.
  - repeat constructor.
  - discriminate.
  - intros c l' [= <- _]. reflexivity.
  - intros c l' E. apply (f_equal (@rev ascii)) in E. rewrite rev_app_distr in E.
    simpl in E. injection E as <- _. reflexivity.
  - reflexivity.
Defined.

Lemma prompt_is_checked_first_witness :
  fal_flux_lora_generate (world [] []) env_bare (post (obj [("loras", JArr [])])) start
  = (Ok prompt_is_required, start).
Proof.
  apply (proj1 (proj2 (prompt_is_checked_first (world [] []) env_bare
                         (post (obj [("loras", JArr [])])) JUndefined start
                         eq_refl eq_refl))).
Defined.

Lemma image_routes_need_key_witness :
  fal_generate (world [] []) env_bare (post (obj [("prompt", JStr "x")])) start
  = (Ok fal_key_missing, start).
Proof.
  apply (proj1 (image_routes_need_key (world [] []) env_bare (post (obj [("prompt", JStr "x")]))
                  (JStr "x") start eq_refl eq_refl eq_refl)).
Defined.

Lemma image_routes_hand_on_provider_failure_witness :
  (fal_generate (world [busy] []) env_open (post (obj [("prompt", JStr "x")])) start).1
  = Ok (status_json 503 (obj [("error", JStr "FAL API error: 503");
                              ("fal", JStr "overloaded")])).
Proof.
  rewrite (proj1 (image_routes_hand_on_provider_failure (world [busy] []) env_open
                    (post (obj [("prompt", JStr "x")])) (JStr "x") busy start
                    eq_refl eq_refl eq_refl eq_refl eq_refl)).
  reflexivity.
Defined.

Lemma image_routes_need_image_url_witness :
  (fal_generate (world [reply 200 "" (obj [("images", JArr [])])] []) env_open
     (post (obj [("prompt", JStr "x")])) start).1
  = Ok (no_image (obj [("images", JArr [])])).
Proof.
  rewrite (proj1 (image_routes_need_image_url
                    (world [reply 200 "" (obj [("images", JArr [])])] []) env_open
                    (post (obj [("prompt", JStr "x")])) (JStr "x")
                    (reply 200 "" (obj [("images", JArr [])])) (obj [("images", JArr [])]) start
                    eq_refl eq_refl eq_refl eq_refl (conj eq_refl eq_refl)
                    (ex_intro _ (JArr [])
                       (conj eq_refl
                          (or_intror (ex_intro _ JUndefined
                                        (conj eq_refl (or_introl eq_refl)))))))).
  reflexivity.
Defined.

Lemma stored_image_is_named_by_time_witness :
  exists stamp st',
    fal_generate (world [image_reply data_url] []) env_open
      (post (obj [("prompt", JStr "x")])) start
    = (Ok (saved_answer (JStr data_url) ("generated_" +:+ stamp +:+ ".jpg")), st').
Proof.
  edestruct (stored_image_is_named_by_time (world [image_reply data_url] []) env_open
               (post (obj [("prompt", JStr "x")])) (JStr "x") (image_reply data_url)
               (JStr data_url)
               "/app/ai_generated_images/generated_2024-01-02T03-04-05-678Z.jpg" start)
    as (stamp & H & _);
    [reflexivity | reflexivity | reflexivity | reflexivity
    | split; [reflexivity | eexists _, _, _; repeat split; reflexivity]
    | reflexivity
    | exists stamp; eexists; exact H].
Defined.

Lemma url_is_checked_first_witness :
  process_news_url (world [] []) env_open (post (obj [])) start = (Ok url_is_required, start).
Proof.
  apply (url_is_checked_first (world [] []) env_open (post (obj [])) JUndefined start
           eq_refl eq_refl).
Defined.






End FurtherExamples.
